(** * pulumi-aws-infra: a shallow embedding of the VPC, container and task
    helpers, and the properties the specification states about them.

    Conventions of the embedding.
    - A pulumi [Input]/[Output] is modelled by the value it resolves to, or
      by the name of the resource or lookup the engine resolves it from.
    - A JavaScript value that may be [undefined] is an [option].
    - A [throw] is the [Throw] completion; the state reached when the
      exception leaves the function is kept, since side effects made before
      the throw persist.
    - Resources handed to the engine ([new aws.ec2.Vpc(...)] and the like) are
      recorded, in program order, in a list of declarations.
    - Counts and array positions are natural numbers; port numbers and
      addresses are integers. *)

From Stdlib Require Import ZArith Lia Ascii String.
From stdpp Require Import base numbers option list strings pretty gmap.

Open Scope string_scope.
Open Scope list_scope.
Open Scope nat_scope.

(** ** JavaScript completions *)

Inductive JsError :=
  | Error (message : string)
  | TypeError (message : string).

(** The outcome of running a piece of code: it returns, it throws, or it
    never finishes. *)
Inductive Completion (A : Type) :=
  | Return (a : A)
  | Throw (e : JsError)
  | Diverges.
Arguments Return {A} a.
Arguments Throw {A} e.
Arguments Diverges {A}.

Definition isReturn {A} (c : Completion A) : bool :=
  match c with Return _ => true | _ => false end.

(** JavaScript truthiness of a string that may be undefined: [undefined] and
    the empty string are falsy. *)
Definition truthy (s : option string) : bool :=
  match s with
  | Some s => negb (String.eqb s "")
  | None => false
  end.

(** The string itself when it is truthy. *)
Definition truthyString (s : option string) : option string :=
  match s with
  | Some s => if String.eqb s "" then None else Some s
  | None => None
  end.

(** ** awsx/utils.ts *)
Module Utils.

(** [combineArrays]: each side defaults to the empty array when it is
    undefined ([e || []]; an empty array is truthy), then the two are
    spread into one array. *)
Definition combineArrays {T : Type} (e1 e2 : option (list T)) : list T :=
  let e1 := default [] e1 in
  let e2 := default [] e2 in
  e1 ++ e2.

(** [mergeTags]: the entries of both records, an undefined record counting
    as empty; for a key of both, the spread of [tags2] comes later and its
    value stays.  The order of the keys is not kept in the model. *)
Definition mergeTags (tags1 tags2 : option (gmap string string)) : gmap string string :=
  default ∅ tags2 ∪ default ∅ tags1.

(** Resource options with their [aliases]; the other properties are [rest]. *)
Record Options (Alias Rest : Type) := {
  opt_aliases : option (list Alias);
  opt_rest : Rest;
}.
Arguments opt_aliases {Alias Rest} _.
Arguments opt_rest {Alias Rest} _.

(** [withAliases]: [allAliases] collects the aliases of [opts] and then the
    new ones; the object returned is [{ ...opts, aliases }]. *)
Definition withAliases {Alias Rest} (opts : Options Alias Rest) (aliases : list Alias)
  : Options Alias Rest :=
  let allAliases :=
    match opt_aliases opts with
    | Some old => foldl (λ all alias, all ++ [alias]) [] old
    | None => []
    end in
  let allAliases := foldl (λ all alias, all ++ [alias]) allAliases aliases in
  {| opt_aliases := Some aliases; opt_rest := opt_rest opts |}.

(** [withAlias]. *)
Definition withAlias {Alias Rest} (opts : Options Alias Rest) (alias : Alias)
  : Options Alias Rest :=
  withAliases opts [alias].

End Utils.

(** ** The aws.ecs shapes the container code reads and writes *)
Module Ecs.

Record KeyValuePair := { name : string; value : string }.

Record PortMapping := {
  containerPort : Z;
  hostPort : option Z;
  protocol : option string;
}.

Record LogConfiguration := {
  logDriver : string;
  options : list (string * string);
}.

End Ecs.

(** ** Container definitions with image providers (src/unnamed/part_003) *)
Module Container.
Import Ecs.

(** A pulumi resource, identified by its name. *)
Definition Resource := string.

(** The interfaces of the file, as records of their methods. *)
Record ContainerImageProvider := {
  image : Resource → string;
  environment : Resource → list KeyValuePair;
}.

Record ContainerPortMappingProvider := {
  containerPortMapping : unit → PortMapping;
}.

(** [Container]: the fields the file reads; the remaining ones are copied
    through by the object spread and are left out. *)
Record Container := {
  c_image : string + ContainerImageProvider;
  c_environment : option (list KeyValuePair);
  c_portMappings : option (list (PortMapping + ContainerPortMappingProvider));
  c_logConfiguration : option LogConfiguration;
}.

Record ContainerDefinition := {
  d_name : string;
  d_image : string;
  d_environment : option (list KeyValuePair);
  d_portMappings : option (list PortMapping);
  d_logConfiguration : LogConfiguration;
}.

(** [convertMappings]: every mapping is copied; the copy's [hostPort] is
    set to its [containerPort] when it is [undefined]. *)
Definition convertMapping (mapping : PortMapping) : PortMapping :=
  let copy := mapping in
  match hostPort copy with
  | None => {| containerPort := containerPort copy;
               hostPort := Some (containerPort copy);
               protocol := protocol copy |}
  | Some _ => copy
  end.

Definition convertMappings (mappings : list PortMapping) : list PortMapping :=
  foldl (λ result mapping, result ++ [convertMapping mapping]) [] mappings.

(** [getPortMappings]: undefined when the container has no [portMappings];
    otherwise every entry is resolved (a provider is asked for its mapping)
    and the resolved list is converted. *)
Definition getPortMappings (container : Container) : option (list PortMapping) :=
  match c_portMappings container with
  | None => None
  | Some objs =>
      let result :=
        foldl (λ result obj,
                 result ++ [match obj with
                            | inr provider => containerPortMapping provider ()
                            | inl mapping => mapping
                            end]) [] objs in
      Some (convertMappings result)
  end.

(** The [image] and [environment] constants of [computeContainerDefinition].
    [isContainerImageProvider] holds of the objects that have both methods,
    the right summand of the type of [image]. *)
Definition computeImage (parent : Resource) (container : Container) : string :=
  match c_image container with
  | inr provider => image provider parent
  | inl s => s
  end.

Definition computeEnvironment (parent : Resource) (container : Container)
  : option (list KeyValuePair) :=
  match c_image container with
  | inr provider =>
      Some (Utils.combineArrays (c_environment container)
                                (Some (environment provider parent)))
  | inl _ => c_environment container
  end.

(** [computeContainerDefinition].  [logGroupId] is the resolved id of the
    log group; [requireRegion] is the outcome of
    [aws.config.requireRegion()], which is called only when the default log
    configuration is built. *)
Definition computeContainerDefinition
    (requireRegion : Completion string) (parent : Resource)
    (containerName : string) (container : Container) (logGroupId : string)
  : Completion ContainerDefinition :=
  let image := computeImage parent container in
  let environment := computeEnvironment parent container in
  let portMappings := getPortMappings container in
  match c_logConfiguration container with
  | Some lc =>
      Return {| d_name := containerName; d_image := image;
                d_environment := environment; d_portMappings := portMappings;
                d_logConfiguration := lc |}
  | None =>
      match requireRegion with
      | Return r =>
          Return {| d_name := containerName; d_image := image;
                    d_environment := environment; d_portMappings := portMappings;
                    d_logConfiguration :=
                      {| logDriver := "awslogs";
                         options := [("awslogs-group", logGroupId);
                                     ("awslogs-region", r);
                                     ("awslogs-stream-prefix", containerName)] |} |}
      | Throw e => Throw e
      | Diverges => Diverges
      end
  end.

(** The mapping an entry of [portMappings] stands for: the entry itself, or
    the mapping its provider answers with. *)
Definition resolveMapping (obj : PortMapping + ContainerPortMappingProvider) : PortMapping :=
  match obj with
  | inr provider => containerPortMapping provider ()
  | inl mapping => mapping
  end.

End Container.

(** ** experimental/containerDefinition.ts *)
Module ContainerDefinition.
Import Ecs.

(** [ContainerEnvironment]: a record from variable names to values. *)
Abbreviation ContainerEnvironment := (gmap string string).

(** [ContainerBuild].  [args] lists the build arguments in the order in
    which [Object.keys] enumerates them. *)
Record ContainerBuild := {
  context : option string;
  dockerfile : option string;
  args : option (list (string * string));
}.

(** The type [string | ContainerBuild] of a [build] field. *)
Abbreviation Build := (string + ContainerBuild)%type.

(** A function given as the implementation of a container, by its source. *)
Definition Closure := string.

Record ContainerDefinition := {
  image : option string;
  build : option Build;
  function : option Closure;
  environment : option ContainerEnvironment;
  portMappings : option (list PortMapping);
  logConfiguration : option LogConfiguration;
}.

(** The image of a computed container: a name given as a string, or the
    output of one invocation of [docker.buildAndPushImage].  Every
    invocation returns a fresh output; it is identified by the position of
    the invocation among the effects of the run. *)
Inductive Image :=
  | ImageName (s : string)
  | BuiltImage (invocation : nat).

Record ImageOptions := {
  o_image : Image;
  o_environment : ContainerEnvironment;
}.

Record Repository := { repositoryName : string }.

(** What the code asks of the engine, of the registry and of docker. *)
Inductive Effect :=
  | NewRepository (name : string)
  | NewLifecyclePolicy (name : string) (repository : string)
  | BuildAndPushImage (imageName : string) (build : Build)
                      (repositoryUrl : string) (registryId : string).

(** The two module-level maps, and the effects of the run so far. *)
Record State := {
  repositories : gmap string Repository;
  buildImageCache : gmap string Image;
  effects : list Effect;
}.

Definition initialState : State :=
  {| repositories := ∅; buildImageCache := ∅; effects := [] |}.

(** [initializePortMapping]: the mapping's [hostPort] is set to its
    [containerPort] when it is [undefined].  The source assigns the field
    of the object it was given and returns that object. *)
Definition initializePortMapping (portMapping : PortMapping) : PortMapping :=
  match hostPort portMapping with
  | None => {| containerPort := containerPort portMapping;
               hostPort := Some (containerPort portMapping);
               protocol := protocol portMapping |}
  | Some _ => portMapping
  end.

(** The [portMappings] field of the definition built by
    [computeContainerDefinition]: [(portMappings || []).map(initializePortMapping)]. *)
Definition computePortMappings (portMappings : option (list PortMapping))
  : list PortMapping :=
  let portMappings := default [] portMappings in
  map initializePortMapping portMappings.

Definition lowerAscii (c : ascii) : ascii :=
  let n := nat_of_ascii c in
  if (65 <=? n)%nat && (n <=? 90)%nat then ascii_of_nat (n + 32) else c.

(** [String.prototype.toLowerCase], on ASCII letters. *)
Fixpoint toLowerCase (s : string) : string :=
  match s with
  | EmptyString => EmptyString
  | String c s => String (lowerAscii c) (toLowerCase s)
  end.

(** The value of a [build] field when it is truthy: a non-empty string or
    an object. *)
Definition truthyBuild (b : option Build) : option Build :=
  match b with
  | Some (inl s) => inl <$> truthyString (Some s)
  | Some (inr o) => Some (inr o)
  | None => None
  end.

Definition createImageOptions (image : Image) (environment : ContainerEnvironment)
  : ImageOptions :=
  {| o_image := image; o_environment := environment |}.

(** The number of invocations of [docker.buildAndPushImage] for
    [imageName] among [effects]. *)
Definition isBuildOf (imageName : string) (e : Effect) : bool :=
  match e with
  | BuildAndPushImage built _ _ _ => String.eqb built imageName
  | _ => false
  end.

Fixpoint buildInvocations (imageName : string) (effects : list Effect) : nat :=
  match effects with
  | [] => 0
  | e :: effects =>
      (if isBuildOf imageName e then 1 else 0) + buildInvocations imageName effects
  end.

Definition upperAscii (c : ascii) : ascii :=
  let n := nat_of_ascii c in
  if (97 <=? n)%nat && (n <=? 122)%nat then ascii_of_nat (n - 32) else c.

(** [String.prototype.toUpperCase], on ASCII letters. *)
Fixpoint toUpperCase (s : string) : string :=
  match s with
  | EmptyString => EmptyString
  | String c s => String (upperAscii c) (toUpperCase s)
  end.

(** The letters [a] to [z], and the characters of ASCII. *)
Definition lowerCaseLetter (c : ascii) : bool :=
  (97 <=? nat_of_ascii c)%nat && (nat_of_ascii c <=? 122)%nat.

Definition asciiCharacter (c : ascii) : bool := (nat_of_ascii c <? 128)%nat.

(** [s.replace(/-/g, "_")]. *)
Fixpoint replaceHyphens (s : string) : string :=
  match s with
  | EmptyString => EmptyString
  | String c s => String (if Ascii.eqb c "-" then "_"%char else c) (replaceHyphens s)
  end.

(** [makeServiceEnvName]. *)
Definition makeServiceEnvName (service : string) : string :=
  replaceHyphens (toUpperCase service).

Definition invalidContainerDefinition : JsError :=
  Error "Invalid container definition: `image`, `build`, or `function` must be provided".

Section WithEngine.
(** [sha1hash] of utils.ts (the first eight hexadecimal digits of a SHA-1
    digest), the serialisation of a closure by the pulumi runtime, and the
    outputs of a declared repository. *)
Variable sha1hash : string → string.
Variable serializeFunction : Closure → string.
Variable repositoryUrl : Repository → string.
Variable registryId : Repository → string.

(** The string [buildSig] of [getBuildImageName]. *)
Definition buildSig (build : Build) : string :=
  match build with
  | inl s => s
  | inr build =>
      let sig := default "." (truthyString (context build)) in
      let sig := match truthyString (dockerfile build) with
                 | Some dockerfile => sig +:+ ";dockerfile=" +:+ dockerfile
                 | None => sig
                 end in
      match args build with
      | Some args =>
          foldl (λ sig arg, sig +:+ ";arg[" +:+ arg.1 +:+ "]=" +:+ arg.2) sig args
      | None => sig
      end
  end.

Definition getBuildImageName (name : string) (build : Build) : string :=
  sha1hash (buildSig build) +:+ "-container-" +:+ name.

(** [getOrCreateRepository]. *)
Definition getOrCreateRepository (imageName : string) (st : State)
  : Repository * State :=
  match repositories st !! imageName with
  | Some repository => (repository, st)
  | None =>
      let repository := {| repositoryName := toLowerCase imageName |} in
      (repository,
       {| repositories := <[imageName := repository]> (repositories st);
          buildImageCache := buildImageCache st;
          effects := effects st ++
                       [NewRepository (toLowerCase imageName);
                        NewLifecyclePolicy (toLowerCase imageName)
                                           (repositoryName repository)] |})
  end.

(** [computeImageFromBuildWorker]: a hit in [buildImageCache] is reused;
    otherwise the image is built and pushed and the output is recorded
    under [imageName].  The registry credentials are fetched by the
    callback handed to docker, inside the deferred build; the debug
    messages are left out. *)
Definition computeImageFromBuildWorker
    (preEnv : ContainerEnvironment) (build : Build) (imageName : string)
    (repositoryUrl registryId : string) (st : State) : ImageOptions * State :=
  match buildImageCache st !! imageName with
  | Some uniqueImageName => (createImageOptions uniqueImageName preEnv, st)
  | None =>
      let uniqueImageName := BuiltImage (length (effects st)) in
      (createImageOptions uniqueImageName preEnv,
       {| repositories := repositories st;
          buildImageCache := <[imageName := uniqueImageName]> (buildImageCache st);
          effects := effects st ++
                       [BuildAndPushImage imageName build repositoryUrl registryId] |})
  end.

(** [computeImageFromBuild].  The worker is the body of an [apply] on the
    outputs of the repository; it is run here as soon as they are known. *)
Definition computeImageFromBuild
    (name : string) (preEnv : ContainerEnvironment) (build : Build) (st : State)
  : ImageOptions * State :=
  let imageName := getBuildImageName name build in
  let '(repository, st) := getOrCreateRepository imageName st in
  computeImageFromBuildWorker preEnv build imageName
                              (repositoryUrl repository) (registryId repository) st.

Definition computeImageFromFunction (func : Closure) (preEnv : ContainerEnvironment)
  : ImageOptions :=
  let preEnv := <["PULUMI_SRC" := serializeFunction func]> preEnv in
  createImageOptions (ImageName "lukehoban/nodejsrunner") preEnv.

(** [computeImage]: the first truthy field among [build], [image] and
    [function] decides; with none the definition is rejected. *)
Definition computeImage (name : string) (container : ContainerDefinition) (st : State)
  : Completion ImageOptions * State :=
  let preEnv : ContainerEnvironment := default ∅ (environment container) in
  match truthyBuild (build container) with
  | Some build =>
      let '(o, st) := computeImageFromBuild name preEnv build st in (Return o, st)
  | None =>
      match truthyString (image container) with
      | Some image => (Return (createImageOptions (ImageName image) preEnv), st)
      | None =>
          match function container with
          | Some func => (Return (computeImageFromFunction func preEnv), st)
          | None =>
              (Throw invalidContainerDefinition, st)
          end
      end
  end.

(** Build requests [(name, preEnv, build)] of several components, served
    one after the other within one run. *)
Fixpoint computeImagesFromBuild
    (requests : list (string * ContainerEnvironment * Build)) (st : State)
  : list ImageOptions * State :=
  match requests with
  | [] => ([], st)
  | (name, preEnv, build) :: requests =>
      let '(o, st) := computeImageFromBuild name preEnv build st in
      let '(os, st) := computeImagesFromBuild requests st in
      (o :: os, st)
  end.

End WithEngine.

End ContainerDefinition.

(** ** experimental/clusterTaskDefinition.ts *)
Module ClusterTaskDefinition.
Import Ecs.

Inductive HostOperatingSystem := linux | windows.

Definition osName (os : HostOperatingSystem) : string :=
  match os with linux => "linux" | windows => "windows" end.

(** A record from names to values, with its keys in the order in which
    [Object.keys] enumerates them. *)
Abbreviation Dict V := (list (string * V)).

Fixpoint dictGet {V} (d : Dict V) (key : string) : option V :=
  match d with
  | [] => None
  | kv :: d => if String.eqb kv.1 key then Some kv.2 else dictGet d key
  end.

Record TaskRunOptions := {
  containerName : option string;
  os : option HostOperatingSystem;
  environment : option (Dict string);
}.

Record PlacementConstraint := { type : string; expression : string }.

Record ContainerOverride := {
  override_name : string;
  override_environment : list KeyValuePair;
}.

(** The request handed to [ecs.runTask]. *)
Record RunTaskRequest := {
  cluster : string;
  taskDefinition : string;
  placementConstraints : option (list PlacementConstraint);
  launchType : string;
  assignPublicIp : string;
  securityGroups : list string;
  subnets : list string;
  containerOverrides : list ContainerOverride;
}.

Record Failure := { arn : option string; reason : option string }.

(** The part of the response of [ecs.runTask] the code reads. *)
Record RunTaskResponse := { failures : option (list Failure) }.

Definition placementConstraintsFor (isFargate : bool) (os : option HostOperatingSystem)
  : option (list PlacementConstraint) :=
  if isFargate then None
  else
    let os := default linux os in
    Some [{| type := "memberOf";
             expression := "attribute:ecs.os-type == " +:+ osName os |}].

(** The local function [addEnvironmentVariables]: the truthy values of the
    record are appended to [env]. *)
Definition addEnvironmentVariables (env : list KeyValuePair) (e : option (Dict string))
  : list KeyValuePair :=
  match e with
  | Some e =>
      foldl (λ env kv,
               match truthyString (Some kv.2) with
               | Some envVal => env ++ [{| name := kv.1; value := envVal |}]
               | None => env
               end) env e
  | None => env
  end.

(** The variables of a record that have a non-empty value, in order. *)
Definition nonEmptyVariables (e : option (Dict string)) : list KeyValuePair :=
  map (λ kv, {| name := kv.1; value := kv.2 |})
      (List.filter (λ kv : string * string, negb (String.eqb kv.2 "")) (default [] e)).

Section WithSdk.
(** The AWS SDK call, with the completion of the promise it returns, and
    [JSON.stringify] on a list of failures. *)
Variable ecs_runTask : RunTaskRequest → Completion RunTaskResponse.
Variable JSON_stringify : list Failure → string.

(** The captured values of [createRunFunction], already resolved. *)
Variable isFargate : bool.
Variable usePrivateSubnets : bool.
Variable clusterArn : string.
Variable taskDefArn : string.
Variable securityGroupId : string.
Variable subnetIds : list string.
Variable containerToEnvironment : Dict (option (Dict string)).

(** The container to run: [options.containerName || Object.keys(innerContainers)[0]],
    when that is truthy. *)
Definition chosenContainerName (options : TaskRunOptions) : option string :=
  let innerContainers := containerToEnvironment in
  truthyString (match truthyString (containerName options) with
                | Some n => Some n
                | None => fst <$> head innerContainers
                end).

(** The argument of [ecs.runTask]. *)
Definition runTaskRequest (containerName : string) (options : TaskRunOptions)
  : RunTaskRequest :=
  let innerContainers := containerToEnvironment in
  let environment := mjoin (dictGet innerContainers containerName) in
  let env := addEnvironmentVariables [] environment in
  let env := addEnvironmentVariables env (ClusterTaskDefinition.environment options) in
  let assignPublicIp := isFargate && negb usePrivateSubnets in
  {| cluster := clusterArn;
     taskDefinition := taskDefArn;
     placementConstraints := placementConstraintsFor isFargate (os options);
     launchType := if isFargate then "FARGATE" else "EC2";
     assignPublicIp := if assignPublicIp then "ENABLED" else "DISABLED";
     securityGroups := [securityGroupId];
     subnets := subnetIds;
     containerOverrides :=
       [{| override_name := "container"; override_environment := env |}] |}.

(** [runTask], the function returned by [createRunFunction].  The result
    is the lines written to the console and the completion of the
    promise of the [async] function. *)
Definition runTask (options : TaskRunOptions) : list string * Completion unit :=
  match chosenContainerName options with
  | None => ([], Throw (Error "No valid container name found to run task for."))
  | Some containerName =>
      match ecs_runTask (runTaskRequest containerName options) with
      | Return res =>
          match failures res with
          | Some (f :: fs) =>
              (["Failed to start task:" +:+ JSON_stringify (f :: fs)],
               Throw (Error ("Failed to start task:" +:+ JSON_stringify (f :: fs))))
          | _ => ([], Return ())
          end
      | Throw e => ([], Throw e)
      | Diverges => ([], Diverges)
      end
  end.

End WithSdk.

(** An endpoint of [mod.Endpoints]. *)
Record Endpoint := {
  hostname : string;
  port : nat;
  loadBalancer : string;
}.

(** [Record<number, Endpoint>], with its keys in the order in which they are
    enumerated. *)
Abbreviation Ports := (list (nat * Endpoint)).

Fixpoint portGet (ports : Ports) (key : nat) : option Endpoint :=
  match ports with
  | [] => None
  | kv :: ports => if kv.1 =? key then Some kv.2 else portGet ports key
  end.

(** A JavaScript number that is a port, or [NaN]. *)
Inductive PortNumber := Port (n : nat) | NaN.

Definition portText (p : PortNumber) : string :=
  match p with Port n => pretty n | NaN => "NaN" end.

(** [getEndpointHelper].  [containerPort || +Object.keys(containerPorts)[0]]
    is a number in every case ([+undefined] is [NaN]); it is kept as an
    option for the comparison with [undefined] that follows. *)
Definition getEndpointHelper (endpoints : Dict Ports)
    (containerName : option string) (containerPort : option nat) : Completion Endpoint :=
  let containerName :=
    match truthyString containerName with
    | Some n => Some n
    | None => fst <$> head endpoints
    end in
  match containerName with
  | None => Throw (Error "No containers available in this service")
  | Some containerName =>
      let containerPorts := default [] (dictGet endpoints containerName) in
      let containerPort : option PortNumber :=
        match containerPort with
        | Some (S n) => Some (Port (S n))
        | _ => Some (match head containerPorts with
                     | Some kv => Port kv.1
                     | None => NaN
                     end)
        end in
      match containerPort with
      | None => Throw (Error ("No ports available in service container " +:+ containerName))
      | Some containerPort =>
          let endpoint :=
            match containerPort with
            | Port n => portGet containerPorts n
            | NaN => None
            end in
          match endpoint with
          | None => Throw (Error ("No exposed port for " +:+ containerName +:+ " port "
                                  +:+ portText containerPort))
          | Some endpoint => Return endpoint
          end
      end
  end.

Section WithLoadBalancerPort.
(** [ClusterLoadBalancerPort], declared in clusterLoadBalancer.ts, which is
    not among the sources; the code here only passes it on. *)
Variable ClusterLoadBalancerPort : Type.

(** The load balancer made by [cluster.createLoadBalancer(name, { loadBalancerPort }, opts)]. *)
Record ClusterLoadBalancer := {
  loadBalancerName : string;
  loadBalancerPortOf : ClusterLoadBalancerPort;
}.

Record ExposedPort := {
  exposedContainerName : string;
  exposedLoadBalancerPort : ClusterLoadBalancerPort;
  exposedLoadBalancer : ClusterLoadBalancer;
}.

(** The loop of [getExposedPort] over the containers that remain, entered
    with the current [exposedPort] and the load balancers created so far.  A
    container is given by its name and its [loadBalancerPort]. *)
Fixpoint getExposedPortFrom (name : string) (exposedPort : option ExposedPort)
    (created : list ClusterLoadBalancer)
    (containers : Dict (option ClusterLoadBalancerPort))
  : Completion (option ExposedPort) * list ClusterLoadBalancer :=
  match containers with
  | [] => (Return exposedPort, created)
  | (containerName, None) :: containers =>
      getExposedPortFrom name exposedPort created containers
  | (containerName, Some loadBalancerPort) :: containers =>
      match exposedPort with
      | Some _ =>
          (Throw (Error "Only a single container can specify a [loadBalancerPort]."), created)
      | None =>
          let loadBalancer := {| loadBalancerName := name +:+ "-" +:+ containerName;
                                 loadBalancerPortOf := loadBalancerPort |} in
          getExposedPortFrom name
            (Some {| exposedContainerName := containerName;
                     exposedLoadBalancerPort := loadBalancerPort;
                     exposedLoadBalancer := loadBalancer |})
            (created ++ [loadBalancer]) containers
      end
  end.

(** The containers that specify a [loadBalancerPort], with it, in order. *)
Definition withLoadBalancerPort (containers : Dict (option ClusterLoadBalancerPort))
  : list (string * ClusterLoadBalancerPort) :=
  omap (λ c, pair c.1 <$> c.2) containers.

Definition exposedPortOf (name containerName : string)
    (loadBalancerPort : ClusterLoadBalancerPort) : ExposedPort :=
  {| exposedContainerName := containerName;
     exposedLoadBalancerPort := loadBalancerPort;
     exposedLoadBalancer := {| loadBalancerName := name +:+ "-" +:+ containerName;
                               loadBalancerPortOf := loadBalancerPort |} |}.

(** [getExposedPort]. *)
Definition getExposedPort (name : string) (containers : Dict (option ClusterLoadBalancerPort))
  : Completion (option ExposedPort) * list ClusterLoadBalancer :=
  getExposedPortFrom name None [] containers.

End WithLoadBalancerPort.

End ClusterTaskDefinition.

(** ** Lambda authorizers of the API gateway (src/unnamed/part_004) *)
Module Authorizers.

(** The location ["header" | "query"] of a parameter. *)
Inductive Location := header | query.

Definition locationName (l : Location) : string :=
  match l with header => "header" | query => "query" end.

Definition sameLocation (a b : Location) : bool :=
  match a, b with
  | header, header | query, query => true
  | _, _ => false
  end.

(** [Record<string, "header" | "query">], with its keys in the order in which
    they are enumerated. *)
Abbreviation Parameters := (list (string * Location)).

(** [Array.prototype.join]. *)
Fixpoint join (separator : string) (l : list string) : string :=
  match l with
  | [] => ""
  | [x] => x
  | x :: l => x +:+ separator +:+ join separator l
  end.

(** [getIdentitySource]. *)
Definition getIdentitySource (identitySources : option (list string)) : string :=
  match identitySources with
  | Some identitySources => join ", " identitySources
  | None => ""
  end.

(** The loop of [getLocation], entered with the current value of [location]
    and the parameters that remain: the first parameter sets the location, a
    parameter with the same location goes on, and one with another location
    returns ["header"] at once. *)
Fixpoint getLocationFrom (location : option Location) (parameters : Parameters)
  : Completion Location :=
  match parameters with
  | [] =>
      match location with
      | None => Throw (Error "Could not determine parameter location")
      | Some location => Return location
      end
  | (parameterKey, currLocation) :: parameters =>
      match location with
      | None => getLocationFrom (Some currLocation) parameters
      | Some l =>
          if sameLocation l currLocation then getLocationFrom location parameters
          else Return header
      end
  end.

(** [getLocation]. *)
Definition getLocation (parameters : Parameters) : Completion Location :=
  getLocationFrom None parameters.

(** Whether some parameter of the record is a header. *)
Definition anyHeader (parameters : Parameters) : bool :=
  existsb (λ p, sameLocation p.2 header) parameters.

(** [parameterToIdentitySource]. *)
Definition parameterToIdentitySource (parameterKey : string) (location : Location) : string :=
  match location with
  | header => "method.request.header." +:+ parameterKey
  | query => "method.request.querystring." +:+ parameterKey
  end.

(** [parametersToIdentitySources]. *)
Definition parametersToIdentitySources (parameters : Parameters) : list string :=
  foldl (λ identitySource parameter,
           identitySource ++ [parameterToIdentitySource parameter.1 parameter.2])
        [] parameters.

(** [LambdaAuthorizerDefinition]; the handler is of a type [Handler] left
    open. *)
Record LambdaAuthorizerDefinition (Handler : Type) := {
  authorizerName : option string;
  parameterName : string;
  parameterLocation : Location;
  authType : string;
  authorizerType : string;
  handler : Handler;
  identitySource : option (list string);
  identityValidationExpression : option string;
  authorizerResultTtlInSeconds : option nat;
}.
Arguments authorizerName {Handler} _.
Arguments parameterName {Handler} _.
Arguments parameterLocation {Handler} _.
Arguments authType {Handler} _.
Arguments authorizerType {Handler} _.
Arguments handler {Handler} _.
Arguments identitySource {Handler} _.
Arguments identityValidationExpression {Handler} _.
Arguments authorizerResultTtlInSeconds {Handler} _.

Record TokenAuthorizerArgs (Handler : Type) := {
  t_authorizerName : option string;
  t_header : string;
  t_handler : Handler;
  t_identityValidationExpression : option string;
  t_authorizerResultTtlInSeconds : option nat;
}.
Arguments t_authorizerName {Handler} _.
Arguments t_header {Handler} _.
Arguments t_handler {Handler} _.
Arguments t_identityValidationExpression {Handler} _.
Arguments t_authorizerResultTtlInSeconds {Handler} _.

Record RequestAuthorizerArgs (Handler : Type) := {
  r_authorizerName : option string;
  r_parameters : Parameters;
  r_handler : Handler;
  r_authorizerResultTtlInSeconds : option nat;
}.
Arguments r_authorizerName {Handler} _.
Arguments r_parameters {Handler} _.
Arguments r_handler {Handler} _.
Arguments r_authorizerResultTtlInSeconds {Handler} _.

(** [getTokenLambdaAuthorizerDefinition]. *)
Definition getTokenLambdaAuthorizerDefinition {Handler} (args : TokenAuthorizerArgs Handler)
  : LambdaAuthorizerDefinition Handler :=
  {| authorizerName := t_authorizerName args;
     parameterName := t_header args;
     parameterLocation := header;
     authType := "oauth2";
     authorizerType := "token";
     handler := t_handler args;
     identitySource := None;
     identityValidationExpression := t_identityValidationExpression args;
     authorizerResultTtlInSeconds := t_authorizerResultTtlInSeconds args |}.

(** [getRequestLambdaAuthorizerDefinition]; the three cases are those of the
    number of parameters: none, one, several. *)
Definition getRequestLambdaAuthorizerDefinition {Handler} (args : RequestAuthorizerArgs Handler)
  : Completion (LambdaAuthorizerDefinition Handler) :=
  let chosen : Completion (string * Location) :=
    match r_parameters args with
    | [] => Throw (Error "Must specify at least one parameter")
    | [parameter] =>
        match getLocation (r_parameters args) with
        | Return location => Return (parameter.1, location)
        | Throw e => Throw e
        | Diverges => Diverges
        end
    | _ => Return ("Unused", header)
    end in
  match chosen with
  | Return (parameterName, location) =>
      Return {| authorizerName := r_authorizerName args;
                parameterName := parameterName;
                parameterLocation := location;
                authType := "custom";
                authorizerType := "request";
                handler := r_handler args;
                identitySource := Some (parametersToIdentitySources (r_parameters args));
                identityValidationExpression := None;
                authorizerResultTtlInSeconds := r_authorizerResultTtlInSeconds args |}
  | Throw e => Throw e
  | Diverges => Diverges
  end.

End Authorizers.

(** ** experimental/ec2: subnet requests and the CIDR partitioner *)
Module VpcTopology.
Local Open Scope Z_scope.

(** [VpcSubnetType] and [VpcSubnetArgs], declared in vpc.ts. *)
Inductive VpcSubnetType := public | private | isolated.

Record VpcSubnetArgs := {
  type : VpcSubnetType;
  name : option string;
  cidrMask : option Z;
}.

(** An IPv4 block: its first address, as a number, and its prefix length. *)
Record CidrBlock := { address : Z; mask : Z }.

Definition blockSize (b : CidrBlock) : Z := 2 ^ (32 - mask b).






(** Modelled from the spec: the mask of the blocks of the requests that
    give none, in [VpcTopology.createSubnets] (vpcTopology.ts is not among
    the sources).  It is the smallest mask with which [zones × subnet-types]
    blocks of one size fit in the parent block, the count being rounded up
    to a power of two. *)
Definition computeCidrMask (parent : CidrBlock) (zones : nat) (specs : list VpcSubnetArgs) : Z :=
  mask parent + Z.log2_up (Z.of_nat (zones * length specs)).

(** Modelled from the spec: the (zone × subnet-type) pairs served by
    [VpcTopology.createSubnets], in the order of the requests; every request
    is served in all zones in turn (vpc.ts: the subnets are created
    [numberOfAvailabilityZones] at a time). *)
Definition requests (zones : nat) (specs : list VpcSubnetArgs)
  : list (VpcSubnetArgs * nat) :=
  spec ← specs; zone ← seq 0 zones; [(spec, zone)].



(** The addresses asked for by one pair, and by a list of pairs. *)
Definition chunkSize (defaultMask : Z) (pair : VpcSubnetArgs * nat) : Z :=
  2 ^ (32 - default defaultMask (cidrMask pair.1)).

Definition chunkTotal (defaultMask : Z) (pairs : list (VpcSubnetArgs * nat)) : Z :=
  foldr (λ pair total, chunkSize defaultMask pair + total) 0 pairs.

(** The addresses asked for by all requests in all zones. *)
Definition demand (parent : CidrBlock) (zones : nat) (specs : list VpcSubnetArgs) : Z :=
  chunkTotal (computeCidrMask parent zones specs) (requests zones specs).

(** Modelled from the spec: the inputs the partitioner accepts.  There is
    at least one zone and one request, a mask given with a request lies
    between the mask of the parent block and 28, the computed mask is a
    prefix length, and the subnets asked for do not exceed the address
    space of the parent block. *)
Definition validInput (parent : CidrBlock) (zones : nat) (specs : list VpcSubnetArgs) : Prop :=
  0 ≤ mask parent ≤ 32 ∧
  (1 ≤ zones)%nat ∧
  specs ≠ [] ∧
  Forall (λ s, match cidrMask s with
               | Some m => mask parent ≤ m ≤ 28
               | None => computeCidrMask parent zones specs ≤ 32
               end) specs ∧
  demand parent zones specs ≤ blockSize parent.

End VpcTopology.

(** ** experimental/ec2/vpc.ts *)
Module Vpc.
Import VpcTopology.

(** The lookups [getDefault] starts; each is a promise. *)
Inductive Lookup :=
  | getVpcDefault
  | getSubnetIds (position : nat)
  | getSecurityGroupDefault.

(** A [pulumi.Input<string>]: a string, the id of a declared resource, or
    the promise of a lookup. *)
Inductive Input :=
  | Literal (s : string)
  | IdOf (resource : string)
  | Promised (lookup : Lookup).

Definition truthyInput (i : Input) : bool :=
  match i with
  | Literal s => truthy (Some s)
  | _ => true
  end.

Inductive RouteTarget :=
  | gatewayId (internetGateway : string)
  | natGatewayId (natGateway : string).

Record Route := {
  routeName : string;
  destinationCidrBlock : string;
  routeTableId : Input;
  target : RouteTarget;
  parent : string;
}.

(** The [Subnet] component (src/unnamed/part_002): its name and the routes
    pushed on it. *)
Record Subnet := {
  subnetName : string;
  routes : list Route;
}.

Definition pushRoute (r : Route) (s : Subnet) : Subnet :=
  {| subnetName := subnetName s; routes := routes s ++ [r] |}.

Record InternetGateway := { internetGatewayName : string }.

Record NatGateway := {
  natGatewayName : string;
  subnetId : Input;
  allocationId : Input;
}.

Record Vpc := {
  vpcId : Input;
  publicSubnetIds : list Input;
  privateSubnetIds : list Input;
  isolatedSubnetIds : list Input;
  securityGroupIds : list Input;
  publicSubnets : list Subnet;
  privateSubnets : list Subnet;
  isolatedSubnets : list Subnet;
  internetGateway : option InternetGateway;
  natGateways : list NatGateway;
}.

Record ExistingVpcArgs := {
  e_vpcId : Input;
  e_publicSubnetIds : option (list Input);
  e_privateSubnetIds : option (list Input);
  e_isolatedSubnetIds : option (list Input);
  e_securityGroupIds : option (list Input);
}.

(** [VpcArgs]: the fields the constructor reads; the others are passed
    through to [aws.ec2.Vpc]. *)
Record VpcArgs := {
  subnets : option (list VpcSubnetArgs);
  numberOfAvailabilityZones : option nat;
  numberOfNatGateways : option nat;
  cidrBlock : option string;
}.

(** What is registered with the engine: a component of this library or a
    resource of the cloud provider. *)
Inductive ResourceKind := component | cloud.

Record Declaration := {
  kind : ResourceKind;
  resourceType : string;
  resourceName : string;
}.


(** The object under construction and the declarations made so far. *)
Record Run := {
  this : Vpc;
  declared : list Declaration;
}.

Definition declare (d : Declaration) (run : Run) : Run :=
  {| this := this run; declared := declared run ++ [d] |}.

Definition setPublicSubnets (l : list Subnet) (v : Vpc) : Vpc :=
  {| vpcId := vpcId v; publicSubnetIds := publicSubnetIds v;
     privateSubnetIds := privateSubnetIds v; isolatedSubnetIds := isolatedSubnetIds v;
     securityGroupIds := securityGroupIds v; publicSubnets := l;
     privateSubnets := privateSubnets v; isolatedSubnets := isolatedSubnets v;
     internetGateway := internetGateway v; natGateways := natGateways v |}.

Definition setPrivateSubnets (l : list Subnet) (v : Vpc) : Vpc :=
  {| vpcId := vpcId v; publicSubnetIds := publicSubnetIds v;
     privateSubnetIds := privateSubnetIds v; isolatedSubnetIds := isolatedSubnetIds v;
     securityGroupIds := securityGroupIds v; publicSubnets := publicSubnets v;
     privateSubnets := l; isolatedSubnets := isolatedSubnets v;
     internetGateway := internetGateway v; natGateways := natGateways v |}.

Definition setInternetGateway (g : option InternetGateway) (v : Vpc) : Vpc :=
  {| vpcId := vpcId v; publicSubnetIds := publicSubnetIds v;
     privateSubnetIds := privateSubnetIds v; isolatedSubnetIds := isolatedSubnetIds v;
     securityGroupIds := securityGroupIds v; publicSubnets := publicSubnets v;
     privateSubnets := privateSubnets v; isolatedSubnets := isolatedSubnets v;
     internetGateway := g; natGateways := natGateways v |}.

Definition setNatGateways (l : list NatGateway) (v : Vpc) : Vpc :=
  {| vpcId := vpcId v; publicSubnetIds := publicSubnetIds v;
     privateSubnetIds := privateSubnetIds v; isolatedSubnetIds := isolatedSubnetIds v;
     securityGroupIds := securityGroupIds v; publicSubnets := publicSubnets v;
     privateSubnets := privateSubnets v; isolatedSubnets := isolatedSubnets v;
     internetGateway := internetGateway v; natGateways := l |}.

(** [for (let i = first; i < first + count; i++) body], left by the first
    iteration that does not return. *)
Fixpoint forLoop {St : Type} (count first : nat)
    (body : nat → St → Completion unit * St) (s : St) : Completion unit * St :=
  match count with
  | O => (Return (), s)
  | S count =>
      match body first s with
      | (Return _, s) => forLoop count (S first) body s
      | stopped => stopped
      end
  end.

(** [for (let i = first; i < n; i += step) body].  [fuel] bounds the number
    of iterations; with a positive step [n] of them are enough, and with a
    step of zero the loop does not end. *)
Fixpoint stepLoop {St : Type} (fuel n step first : nat)
    (body : nat → St → Completion unit * St) (s : St) : Completion unit * St :=
  if (first <? n)%nat then
    match fuel with
    | O => (Diverges, s)
    | S fuel =>
        match body first s with
        | (Return _, s) => stepLoop fuel n step (first + step) body s
        | stopped => stopped
        end
    end
  else (Return (), s).

(** [createInternetGateway]. *)
Definition internetGatewayRoute (internetGateway : string) (publicSubnet : Subnet) : Route :=
  {| routeName := subnetName publicSubnet +:+ "-ig";
     destinationCidrBlock := "0.0.0.0/0";
     routeTableId := IdOf (subnetName publicSubnet);
     target := gatewayId internetGateway;
     parent := subnetName publicSubnet |}.

Definition declareRoute (r : Route) : Declaration :=
  {| kind := cloud; resourceType := "aws:ec2/route:Route"; resourceName := routeName r |}.

Definition createInternetGateway (name : string) (run : Run)
  : option InternetGateway * Run :=
  if (length (publicSubnets (this run)) =? 0)%nat then (None, run)
  else
    let run := declare {| kind := cloud;
                          resourceType := "aws:ec2/internetGateway:InternetGateway";
                          resourceName := name |} run in
    let publicSubnets := publicSubnets (this run) in
    (Some {| internetGatewayName := name |},
     {| this := setPublicSubnets
                  (map (λ s, pushRoute (internetGatewayRoute name s) s) publicSubnets)
                  (this run);
        declared := declared run
                      ++ map (λ s, declareRoute (internetGatewayRoute name s)) publicSubnets |}).

Definition natGatewayIn (i : nat) (publicSubnet : Subnet) : NatGateway :=
  {| natGatewayName := "nat-" +:+ pretty i;
     subnetId := IdOf (subnetName publicSubnet);
     allocationId := IdOf ("nat-" +:+ pretty i) |}.

(** The body of the first loop of [createNatGateways]: the elastic IP and
    the NAT gateway number [i].  [i % numberOfAvailabilityZones] is [NaN]
    for zero zones, and indexing with it gives [undefined]. *)
Definition createNatGateway (numberOfAvailabilityZones i : nat) (run : Run)
  : Completion unit * Run :=
  let publicSubnet :=
    if (numberOfAvailabilityZones =? 0)%nat then None
    else publicSubnets (this run) !! (i mod numberOfAvailabilityZones)%nat in
  let natName := "nat-" +:+ pretty i in
  let run := declare {| kind := cloud; resourceType := "aws:ec2/eip:Eip";
                        resourceName := natName |} run in
  match publicSubnet with
  | None => (Throw (TypeError "Cannot read property 'subnetId' of undefined"), run)
  | Some publicSubnet =>
      let natGateway := natGatewayIn i publicSubnet in
      let run := declare {| kind := cloud; resourceType := "aws:ec2/natGateway:NatGateway";
                            resourceName := natName |} run in
      (Return (),
       {| this := setNatGateways (natGateways (this run) ++ [natGateway]) (this run);
          declared := declared run |})
  end.

Definition natRoute (privateSubnet : Subnet) (j : nat) (natGateway : NatGateway) : Route :=
  {| routeName := subnetName privateSubnet +:+ "-nat-" +:+ pretty j;
     destinationCidrBlock := "0.0.0.0/0";
     routeTableId := IdOf (subnetName privateSubnet);
     target := natGatewayId (natGatewayName natGateway);
     parent := subnetName privateSubnet |}.

(** The body of the inner loop of [createNatGateways], for the chunk that
    starts at [i] and the position [j] in it.  The state is
    [roundRobinIndex] and the run. *)
Definition routeThroughNatGateway (numberOfNatGateways i j : nat) (s : nat * Run)
  : Completion unit * (nat * Run) :=
  let '(roundRobinIndex, run) := s in
  let privateSubnet := privateSubnets (this run) !! (i + j)%nat in
  let '(natGateway, roundRobinIndex) :=
    if (j <? numberOfNatGateways)%nat
    then (natGateways (this run) !! j, roundRobinIndex)
    else (natGateways (this run) !! roundRobinIndex, S roundRobinIndex) in
  match privateSubnet with
  | None => (Throw (TypeError "Cannot read property 'routes' of undefined"),
             (roundRobinIndex, run))
  | Some privateSubnet =>
      match natGateway with
      | None => (Throw (TypeError "Cannot read property 'id' of undefined"),
                 (roundRobinIndex, run))
      | Some natGateway =>
          let route := natRoute privateSubnet j natGateway in
          let run := declare (declareRoute route) run in
          (Return (),
           (roundRobinIndex,
            {| this := setPrivateSubnets
                         (alter (pushRoute route) (i + j)%nat (privateSubnets (this run)))
                         (this run);
               declared := declared run |}))
      end
  end.

(** [createNatGateways]. *)
Definition createNatGateways (numberOfAvailabilityZones numberOfNatGateways : nat) (run : Run)
  : Completion unit * Run :=
  if (length (privateSubnets (this run)) =? 0)%nat
     || (numberOfNatGateways =? 0)%nat
     || (length (publicSubnets (this run)) =? 0)%nat
  then (Return (), run)
  else
    match forLoop numberOfNatGateways 0 (createNatGateway numberOfAvailabilityZones) run with
    | (Return _, run) =>
        let roundRobinIndex := 0%nat in
        let n := length (privateSubnets (this run)) in
        let '(completion, (_, run)) :=
          stepLoop n n numberOfAvailabilityZones 0
            (λ i, forLoop numberOfAvailabilityZones 0
                    (routeThroughNatGateway numberOfNatGateways i))
            (roundRobinIndex, run) in
        (completion, run)
    | stopped => stopped
    end.

(** [createOutputs]. *)
Definition createOutputs (inputs : option (list Input)) : list Input :=
  match inputs with
  | None => []
  | Some inputs => inputs
  end.

Definition emptyVpc (vpcId : Input) : Vpc :=
  {| vpcId := vpcId; publicSubnetIds := []; privateSubnetIds := [];
     isolatedSubnetIds := []; securityGroupIds := []; publicSubnets := [];
     privateSubnets := []; isolatedSubnets := []; internetGateway := None;
     natGateways := [] |}.

(** [isExistingVpcArgs]: the object has a truthy [vpcId]. *)
Definition isExistingVpcArgs (args : VpcArgs + ExistingVpcArgs) : option ExistingVpcArgs :=
  match args with
  | inr existing => if truthyInput (e_vpcId existing) then Some existing else None
  | inl _ => None
  end.

(** The fields of [VpcArgs] as read from the argument once it is known not
    to be an [ExistingVpcArgs]. *)
Definition asVpcArgs (args : VpcArgs + ExistingVpcArgs) : VpcArgs :=
  match args with
  | inl args => args
  | inr _ => {| subnets := None; numberOfAvailabilityZones := None;
                numberOfNatGateways := None; cidrBlock := None |}
  end.

Definition tooManyNatGateways (numberOfNatGateways numberOfAvailabilityZones : nat) : JsError :=
  Error ("[numberOfNatGateways] cannot be greater than [numberOfAvailabilityZones]: "
         +:+ pretty numberOfNatGateways +:+ " > " +:+ pretty numberOfAvailabilityZones).

(** The declarations of the component itself ([super(...)]) and of its
    [aws.ec2.Vpc]. *)
Definition vpcComponent (name : string) : Declaration :=
  {| kind := component; resourceType := "awsinfra:x:ec2:Vpc"; resourceName := name |}.

Definition awsVpc (name : string) : Declaration :=
  {| kind := cloud; resourceType := "aws:ec2/vpc:Vpc"; resourceName := name |}.

Section WithTopology.
(** [new VpcTopology(this, name, cidrBlock, zones, opts).createSubnets(specs)]
    of vpcTopology.ts, which is not among the sources: the object after
    the subnets were added to it, or the error thrown, and the resources
    declared on the way. *)
Variable topologyCreateSubnets :
  Vpc → string → string → nat → list VpcSubnetArgs → Completion Vpc * list Declaration.

(** The constructor of [Vpc]. *)
Definition constructor (name : string) (args : VpcArgs + ExistingVpcArgs)
  : Completion Vpc * list Declaration :=
  let declared := [vpcComponent name] in
  match isExistingVpcArgs args with
  | Some args =>
      (Return {| vpcId := e_vpcId args;
                 publicSubnetIds := createOutputs (e_publicSubnetIds args);
                 privateSubnetIds := createOutputs (e_privateSubnetIds args);
                 isolatedSubnetIds := createOutputs (e_isolatedSubnetIds args);
                 securityGroupIds := [];
                 publicSubnets := []; privateSubnets := []; isolatedSubnets := [];
                 internetGateway := None; natGateways := [] |},
       declared)
  | None =>
      let args := asVpcArgs args in
      let cidrBlock := default "10.0.0.0/16" (cidrBlock args) in
      let numberOfAvailabilityZones := default 2%nat (numberOfAvailabilityZones args) in
      let numberOfNatGateways :=
        default numberOfAvailabilityZones (numberOfNatGateways args) in
      if (numberOfAvailabilityZones <? numberOfNatGateways)%nat
      then (Throw (tooManyNatGateways numberOfNatGateways numberOfAvailabilityZones),
            declared)
      else
        let declared := declared ++ [awsVpc name] in
        let this := emptyVpc (IdOf name) in
        match topologyCreateSubnets this name cidrBlock numberOfAvailabilityZones
                (default [ {| type := public; VpcTopology.name := None; cidrMask := None |};
                           {| type := private; VpcTopology.name := None; cidrMask := None |} ]
                         (subnets args))
        with
        | (Return this, subnetDeclarations) =>
            let run := {| this := this; declared := declared ++ subnetDeclarations |} in
            let '(internetGateway, run) := createInternetGateway name run in
            let run := {| this := setInternetGateway internetGateway (Vpc.this run);
                          declared := Vpc.declared run |} in
            match createNatGateways numberOfAvailabilityZones numberOfNatGateways run with
            | (Return _, run) => (Return (Vpc.this run), Vpc.declared run)
            | (Throw e, run) => (Throw e, Vpc.declared run)
            | (Diverges, run) => (Diverges, Vpc.declared run)
            end
        | (Throw e, subnetDeclarations) => (Throw e, declared ++ subnetDeclarations)
        | (Diverges, subnetDeclarations) => (Diverges, declared ++ subnetDeclarations)
        end
  end.

(** What a call of [getDefault] does besides returning. *)
Inductive Event :=
  | Invokes (lookup : Lookup)
  | Registers (d : Declaration).

(** [getDefault].  [defaultVpc] is the module-level variable; the result is
    the value returned, the variable after the call and the events of the
    call. *)
Definition getDefault (defaultVpc : option Vpc)
  : Completion (option Vpc) * option Vpc * list Event :=
  match defaultVpc with
  | None => (Return defaultVpc, defaultVpc, [])
  | Some _ =>
      let vpcId := Promised getVpcDefault in
      let subnet0 := Promised (getSubnetIds 0) in
      let subnet1 := Promised (getSubnetIds 1) in
      let defaultSecurityGroup := Promised getSecurityGroupDefault in
      let events := [Invokes getVpcDefault; Invokes (getSubnetIds 0);
                     Invokes (getSubnetIds 1); Invokes getSecurityGroupDefault] in
      match constructor "default-vpc"
              (inr {| e_vpcId := vpcId;
                      e_publicSubnetIds := Some [subnet0; subnet1];
                      e_privateSubnetIds := None;
                      e_isolatedSubnetIds := None;
                      e_securityGroupIds := Some [defaultSecurityGroup] |})
      with
      | (Return vpc, declared) =>
          (Return (Some vpc), Some vpc, events ++ map Registers declared)
      | (Throw e, declared) => (Throw e, defaultVpc, events ++ map Registers declared)
      | (Diverges, declared) => (Diverges, defaultVpc, events ++ map Registers declared)
      end
  end.

(** A sequence of [count] calls of [getDefault]: the values returned, the
    variable at the end and all events. *)
Fixpoint getDefaultCalls (count : nat) (defaultVpc : option Vpc)
  : list (Completion (option Vpc)) * option Vpc * list Event :=
  match count with
  | O => ([], defaultVpc, [])
  | S count =>
      let '(result, defaultVpc, events) := getDefault defaultVpc in
      let '(results, defaultVpc, later) := getDefaultCalls count defaultVpc in
      (result :: results, defaultVpc, events ++ later)
  end.

End WithTopology.

(** The value of [roundRobinIndex] when the second loop of
    [createNatGateways] reaches the private subnet number [k]: the counter
    starts at 0 and has been incremented once for every earlier subnet, of
    this chunk or of an earlier one, whose position in its chunk is not
    below the number of gateways. *)
Fixpoint roundRobinPicks (numberOfAvailabilityZones numberOfNatGateways k : nat) : nat :=
  match k with
  | O => 0
  | S k =>
      roundRobinPicks numberOfAvailabilityZones numberOfNatGateways k
      + (if (k mod numberOfAvailabilityZones <? numberOfNatGateways)%nat then 0 else 1)
  end.

(** The position in [natGateways] read for the private subnet number [k]:
    its position in its chunk when that is below the number of gateways,
    and the value of the counter otherwise. *)
Definition gatewayIndex (numberOfAvailabilityZones numberOfNatGateways k : nat) : nat :=
  let j := (k mod numberOfAvailabilityZones)%nat in
  if (j <? numberOfNatGateways)%nat then j
  else roundRobinPicks numberOfAvailabilityZones numberOfNatGateways k.

(** The private subnet number [k] once its route through the gateway at
    [gatewayIndex] has been pushed. *)
Definition routedThrough (natGateways : list NatGateway)
    (numberOfAvailabilityZones numberOfNatGateways k : nat) (privateSubnet : Subnet) : Subnet :=
  match natGateways !! gatewayIndex numberOfAvailabilityZones numberOfNatGateways k with
  | Some natGateway =>
      pushRoute (natRoute privateSubnet (k mod numberOfAvailabilityZones)%nat natGateway)
                privateSubnet
  | None => privateSubnet
  end.

(** The body of the second loop of [createNatGateways] at the private
    subnet number [k], which is at position [k mod zones] of the chunk that
    starts at [k - k mod zones]. *)
Definition flatBody (numberOfAvailabilityZones numberOfNatGateways k : nat) :=
  routeThroughNatGateway numberOfNatGateways
    (k - k mod numberOfAvailabilityZones) (k mod numberOfAvailabilityZones).

(** A subnet on which no route has been pushed yet, and the run in which
    the subnets of the given names have been added to a new Vpc. *)
Definition newSubnet (name : string) : Subnet :=
  {| subnetName := name; routes := [] |}.

Definition runWith (publicNames privateNames : list string) : Run :=
  {| this := setPrivateSubnets (map newSubnet privateNames)
               (setPublicSubnets (map newSubnet publicNames) (emptyVpc (IdOf "vpc")));
     declared := [] |}.

(** The run [b] continues the run [a]: it has made the declarations of [a]
    and possibly more. *)
Definition extends (a b : Run) : Prop := declared a `prefix_of` declared b.

(** A subnet with the same name and the same routes, possibly followed by
    more. *)
Definition subnetGrows (s s' : Subnet) : Prop :=
  subnetName s' = subnetName s ∧ routes s `prefix_of` routes s'.

(** The run [b] has what the run [a] has and possibly more: the same public
    and isolated subnets and internet gateway, and the NAT gateways, the
    declarations and the routes of each private subnet of [a], possibly
    followed by more. *)
Definition grows (a b : Run) : Prop :=
  publicSubnets (this b) = publicSubnets (this a)
  ∧ isolatedSubnets (this b) = isolatedSubnets (this a)
  ∧ internetGateway (this b) = internetGateway (this a)
  ∧ natGateways (this a) `prefix_of` natGateways (this b)
  ∧ declared a `prefix_of` declared b
  ∧ Forall2 subnetGrows (privateSubnets (this a)) (privateSubnets (this b)).

End Vpc.

(** ** ec2/securityGroup.ts *)
Module SecurityGroup.
Import Vpc.

Section WithVpc.
(** [x.ec2.Vpc] of ec2/vpc.ts, which is not among the sources: its objects,
    and its static [getDefault], which acts on the state of the program and
    returns a Vpc or [undefined]. *)
Context {VpcObject World : Type}.
Variable getDefault : World → Completion (option VpcObject) * World.

(** An [aws.ec2.SecurityGroup]: declared anew with the [id] of a vpc as its
    [vpcId], or read by its id with [aws.ec2.SecurityGroup.get]. *)
Inductive AwsSecurityGroup :=
  | newSecurityGroup (name : string) (ofVpc : VpcObject)
  | existingSecurityGroup (name : string) (id : Input).

(** [SecurityGroupArgs]: the fields the constructor reads; the others are
    passed through to [aws.ec2.SecurityGroup]. *)
Record SecurityGroupArgs := {
  a_securityGroup : option AwsSecurityGroup;
  a_vpc : option VpcObject;
}.

(** The component; [vpc] is undefined when [getDefault] returned undefined. *)
Record SecurityGroup := {
  componentName : string;
  securityGroup : AwsSecurityGroup;
  vpc : option VpcObject;
}.

(** What is asked of the engine: a registration or a read by id. *)
Inductive Event :=
  | Registered (d : Declaration)
  | GetSecurityGroup (name : string) (id : Input).

Definition securityGroupComponent (name : string) : Declaration :=
  {| kind := component; resourceType := "awsinfra:x:ec2:SecurityGroup";
     resourceName := name |}.

Definition awsSecurityGroup (name : string) : Declaration :=
  {| kind := cloud; resourceType := "aws:ec2/securityGroup:SecurityGroup";
     resourceName := name |}.

(** The constructor of [SecurityGroup]: the completion, the state of the
    program after the call and the events of the call. *)
Definition constructor (name : string) (args : SecurityGroupArgs) (world : World)
  : Completion SecurityGroup * World * list Event :=
  let events := [Registered (securityGroupComponent name)] in
  let '(vpc, world) :=
    match a_vpc args with
    | Some vpc => (Return (Some vpc), world)
    | None => getDefault world
    end in
  match vpc with
  | Return vpc =>
      match a_securityGroup args with
      | Some securityGroup =>
          (Return {| componentName := name; securityGroup := securityGroup; vpc := vpc |},
           world, events)
      | None =>
          match vpc with
          | None => (Throw (TypeError "Cannot read property 'id' of undefined"),
                     world, events)
          | Some v =>
              (Return {| componentName := name;
                         securityGroup := newSecurityGroup name v;
                         vpc := vpc |},
               world, events ++ [Registered (awsSecurityGroup name)])
          end
      end
  | Throw e => (Throw e, world, events)
  | Diverges => (Diverges, world, events)
  end.

(** [SecurityGroup.fromExistingId]. *)
Definition fromExistingId (name : string) (id : Input) (args : SecurityGroupArgs)
    (world : World) : Completion SecurityGroup * World * list Event :=
  let '(result, world, events) :=
    constructor name
      {| a_securityGroup := Some (existingSecurityGroup name id); a_vpc := a_vpc args |}
      world in
  (result, world, GetSecurityGroup name id :: events).

(** The loop of [getSecurityGroups] from position [i] on, with the result
    and the events so far. *)
Fixpoint getSecurityGroupsFrom (vpc : VpcObject) (name : string) (i : nat)
    (args : list (SecurityGroup + Input)) (result : list SecurityGroup)
    (world : World) (events : list Event)
  : Completion (list SecurityGroup) * World * list Event :=
  match args with
  | [] => (Return result, world, events)
  | inl obj :: args =>
      getSecurityGroupsFrom vpc name (S i) args (result ++ [obj]) world events
  | inr obj :: args =>
      match fromExistingId (name +:+ "-" +:+ pretty i) obj
              {| a_securityGroup := None; a_vpc := Some vpc |} world with
      | (Return group, world, more) =>
          getSecurityGroupsFrom vpc name (S i) args (result ++ [group]) world
                                (events ++ more)
      | (Throw e, world, more) => (Throw e, world, events ++ more)
      | (Diverges, world, more) => (Diverges, world, events ++ more)
      end
  end.

(** [getSecurityGroups]. *)
Definition getSecurityGroups (vpc : VpcObject) (name : string)
    (args : option (list (SecurityGroup + Input))) (world : World)
  : Completion (option (list SecurityGroup)) * World * list Event :=
  match args with
  | None => (Return None, world, [])
  | Some args =>
      match getSecurityGroupsFrom vpc name 0 args [] world [] with
      | (Return result, world, events) => (Return (Some result), world, events)
      | (Throw e, world, events) => (Throw e, world, events)
      | (Diverges, world, events) => (Diverges, world, events)
      end
  end.

(** The component made for the id at position [i] of the argument of
    [getSecurityGroups]. *)
Definition wrapped (vpc : VpcObject) (name : string) (i : nat) (id : Input)
  : SecurityGroup :=
  {| componentName := name +:+ "-" +:+ pretty i;
     securityGroup := existingSecurityGroup (name +:+ "-" +:+ pretty i) id;
     vpc := Some vpc |}.

(** The group that stands in the result for the argument at position [i]. *)
Definition isGroupOf (vpc : VpcObject) (name : string) (i : nat)
    (arg : SecurityGroup + Input) (group : SecurityGroup) : Prop :=
  match arg with
  | inl given => group = given
  | inr id => group = wrapped vpc name i id
  end.

(** An event that declares no resource of the cloud provider. *)
Definition isLookupOrComponent (e : Event) : Prop :=
  match e with
  | Registered d => kind d = component
  | GetSecurityGroup _ _ => True
  end.

End WithVpc.

Arguments AwsSecurityGroup : clear implicits.
Arguments SecurityGroupArgs : clear implicits.
Arguments SecurityGroup : clear implicits.

End SecurityGroup.

(** ** experimental/clusterFileSystem.ts *)
Module ClusterFileSystem.
Import Vpc.

(** The parts of [mod.Cluster] the constructor reads. *)
Record Cluster := {
  networkVpcId : Input;
  networkSubnetIds : list Input;
  instanceSecurityGroups : list Input;
}.

(** The security group of the file system: the one given, or the one
    created under the name [name-fs]. *)
Inductive FileSystemSecurityGroup :=
  | givenSecurityGroup (group : string)
  | createdSecurityGroup (name : string) (vpcId : Input) (nfsFrom : list Input).

Record ClusterFileSystemArgs := {
  cluster : Cluster;
  securityGroup : option string;
  subnetIds : option (list Input);
  mountPath : option string;
}.

Record MountTarget := {
  mountTargetName : string;
  fileSystemId : Input;
  subnetId : Input;
  securityGroups : list FileSystemSecurityGroup;
}.

Record ClusterFileSystem := {
  instance : string;
  fs_securityGroup : FileSystemSecurityGroup;
  mountTargets : list MountTarget;
  fs_mountPath : string;
}.

(** The mount targets made by the loop over [subnetIds], from position [i]
    on. *)
Fixpoint createMountTargets (name : string) (group : FileSystemSecurityGroup)
    (i : nat) (subnetIds : list Input) : list MountTarget :=
  match subnetIds with
  | [] => []
  | subnetId :: subnetIds =>
      {| mountTargetName := name +:+ "-" +:+ pretty i;
         fileSystemId := IdOf name;
         subnetId := subnetId;
         securityGroups := [group] |}
      :: createMountTargets name group (S i) subnetIds
  end.

(** The constructor of [ClusterFileSystem]: the component and what it
    declares, in order. *)
Definition constructor (name : string) (args : ClusterFileSystemArgs)
  : ClusterFileSystem * list Declaration :=
  let cluster := cluster args in
  let mountPath := default "/mnt/efs" (truthyString (mountPath args)) in
  let efsSecurityGroupName := name +:+ "-fs" in
  let '(securityGroup, groupDeclarations) :=
    match securityGroup args with
    | Some group => (givenSecurityGroup group, [])
    | None =>
        (createdSecurityGroup efsSecurityGroupName (networkVpcId cluster)
                              (instanceSecurityGroups cluster),
         [{| kind := cloud; resourceType := "aws:ec2/securityGroup:SecurityGroup";
             resourceName := efsSecurityGroupName |}])
    end in
  let subnetIds := default (networkSubnetIds cluster) (subnetIds args) in
  let mountTargets := createMountTargets name securityGroup 0 subnetIds in
  ({| instance := name; fs_securityGroup := securityGroup;
      mountTargets := mountTargets; fs_mountPath := mountPath |},
   [{| kind := component; resourceType := "aws-infra:x:ClusterFileSystem";
       resourceName := name |};
    {| kind := cloud; resourceType := "aws:efs/fileSystem:FileSystem";
       resourceName := name |}]
   ++ groupDeclarations
   ++ map (λ m, {| kind := cloud; resourceType := "aws:efs/mountTarget:MountTarget";
                   resourceName := mountTargetName m |}) mountTargets).

(** The name of the mount target number [i]. *)
Definition mountTargetNamed (name : string) (i : nat) : string :=
  name +:+ "-" +:+ pretty i.


End ClusterFileSystem.

(** * Properties *)

(** ** Port mappings and environments *)

Lemma convertMappings_map (mappings : list Ecs.PortMapping) :
  Container.convertMappings mappings = map Container.convertMapping mappings.
Proof.
  unfold Container.convertMappings.
  assert (∀ acc, foldl (λ result mapping, result ++ [Container.convertMapping mapping])
                       acc mappings
                 = acc ++ map Container.convertMapping mappings) as H.
  { induction mappings as [|m ms IH]; intros acc; simpl.
    - by rewrite app_nil_r.
    - rewrite IH. by rewrite <- app_assoc. }
  apply (H []).
Qed.

Lemma convertMapping_hostPort (m : Ecs.PortMapping) :
  Ecs.hostPort (Container.convertMapping m)
  = Some (default (Ecs.containerPort m) (Ecs.hostPort m))
  ∧ Ecs.containerPort (Container.convertMapping m) = Ecs.containerPort m
  ∧ Ecs.protocol (Container.convertMapping m) = Ecs.protocol m.
Proof. unfold Container.convertMapping. destruct m as [c [h|] p]; simpl; auto. Qed.

Lemma initializePortMapping_convertMapping (m : Ecs.PortMapping) :
  ContainerDefinition.initializePortMapping m = Container.convertMapping m.
Proof. reflexivity. Qed.

(** C6.  Normalisation of port mappings, in [convertMappings] and in
    [initializePortMapping] as applied by [computeContainerDefinition]: the
    mapping at every position keeps its container port and protocol; a host
    port that is undefined becomes the container port, and a host port that
    is given is kept ([m' = m]).  In particular [{containerPort: 80}] becomes
    [{containerPort: 80, hostPort: 80}]. *)
Theorem hostPort_defaults_to_containerPort
    (mappings : list Ecs.PortMapping) (i : nat) (m : Ecs.PortMapping) :
  mappings !! i = Some m →
  (∃ m', Container.convertMappings mappings !! i = Some m'
         ∧ ContainerDefinition.computePortMappings (Some mappings) !! i = Some m'
         ∧ Ecs.containerPort m' = Ecs.containerPort m
         ∧ Ecs.protocol m' = Ecs.protocol m
         ∧ (Ecs.hostPort m = None → Ecs.hostPort m' = Some (Ecs.containerPort m))
         ∧ (∀ h, Ecs.hostPort m = Some h → m' = m))
  ∧ length (Container.convertMappings mappings) = length mappings
  ∧ Container.convertMappings
      [{| Ecs.containerPort := 80; Ecs.hostPort := None; Ecs.protocol := None |}]
    = [{| Ecs.containerPort := 80; Ecs.hostPort := Some 80%Z; Ecs.protocol := None |}].
Proof.
  intros Hm. split; [|split].
  - exists (Container.convertMapping m).
    rewrite convertMappings_map. unfold ContainerDefinition.computePortMappings. simpl.
    rewrite !list_lookup_fmap, Hm. simpl.
    destruct (convertMapping_hostPort m) as (Hh & Hc & Hp).
    repeat split; auto.
    + intros Hnone. rewrite Hh, Hnone. reflexivity.
    + intros h Hsome. unfold Container.convertMapping. by rewrite Hsome.
  - rewrite convertMappings_map. apply length_map.
  - reflexivity.
Qed.

Lemma hostPort_defaults_to_containerPort_witness :
  ∃ m', Container.convertMappings
          [{| Ecs.containerPort := 8080%Z; Ecs.hostPort := None; Ecs.protocol := Some "tcp" |};
           {| Ecs.containerPort := 443%Z; Ecs.hostPort := Some 8443%Z; Ecs.protocol := None |}]
        !! 0 = Some m'
        ∧ Ecs.hostPort m' = Some 8080%Z.
Proof.
  destruct (hostPort_defaults_to_containerPort
    [{| Ecs.containerPort := 8080%Z; Ecs.hostPort := None; Ecs.protocol := Some "tcp" |};
     {| Ecs.containerPort := 443%Z; Ecs.hostPort := Some 8443%Z; Ecs.protocol := None |}]
    0 _ eq_refl) as [(m' & Hm' & _ & _ & _ & Hnone & _) _].
  exists m'. split; [exact Hm' | apply Hnone; reflexivity].
Defined.

Lemma resolve_plain_mappings (mappings acc : list Ecs.PortMapping) :
  foldl (λ result (obj : Ecs.PortMapping + Container.ContainerPortMappingProvider),
           result ++ [match obj with
                      | inr provider => Container.containerPortMapping provider ()
                      | inl mapping => mapping
                      end]) acc (map inl mappings)
  = acc ++ mappings.
Proof.
  revert acc. induction mappings as [|m ms IH]; intros acc; simpl.
  - by rewrite app_nil_r.
  - rewrite IH. by rewrite <- app_assoc.
Qed.

(** Plain mappings of a container are converted one by one. *)
Lemma getPortMappings_plain (container : Container.Container) (mappings : list Ecs.PortMapping) :
  Container.c_portMappings container = Some (map inl mappings) →
  Container.getPortMappings container = Some (map Container.convertMapping mappings).
Proof.
  intros H. unfold Container.getPortMappings. rewrite H. f_equal.
  rewrite convertMappings_map. f_equal. apply (resolve_plain_mappings mappings []).
Qed.

(** C7.  For a container whose image is a [ContainerImageProvider], the
    environment computed is the list given by the user followed by the list
    of the provider, an undefined list counting as empty; this is the
    environment of every definition [computeContainerDefinition] returns.
    No entry is dropped: the length is the sum of the lengths, and two
    entries with one name are both kept, the user's first. *)
Theorem environment_is_user_then_provider
    (parent : Container.Resource) (container : Container.Container)
    (provider : Container.ContainerImageProvider) :
  Container.c_image container = inr provider →
  let user := default [] (Container.c_environment container) in
  let injected := Container.environment provider parent in
  Container.computeEnvironment parent container = Some (user ++ injected)
  ∧ (∀ requireRegion containerName logGroupId d,
       Container.computeContainerDefinition requireRegion parent containerName
                                            container logGroupId = Return d →
       Container.d_environment d = Some (user ++ injected))
  ∧ length (user ++ injected) = (length user + length injected)%nat
  ∧ (∀ (e1 e2 : option (list Ecs.KeyValuePair)),
       Utils.combineArrays e1 e2 = default [] e1 ++ default [] e2)
  ∧ Utils.combineArrays (Some [{| Ecs.name := "MODE"; Ecs.value := "user" |}])
                        (Some [{| Ecs.name := "MODE"; Ecs.value := "provider" |}])
    = [{| Ecs.name := "MODE"; Ecs.value := "user" |};
       {| Ecs.name := "MODE"; Ecs.value := "provider" |}].
Proof.
  intros Himg user injected.
  assert (Container.computeEnvironment parent container = Some (user ++ injected)) as Henv.
  { unfold Container.computeEnvironment. rewrite Himg. reflexivity. }
  split; [exact Henv|]. split; [|split; [|split]].
  - intros requireRegion containerName logGroupId d.
    unfold Container.computeContainerDefinition.
    destruct (Container.c_logConfiguration container).
    + intros [= <-]. exact Henv.
    + destruct requireRegion; intros [= <-]. exact Henv.
  - apply length_app.
  - reflexivity.
  - reflexivity.
Qed.

Lemma environment_is_user_then_provider_witness :
  Container.computeEnvironment "service"
    {| Container.c_image :=
         inr {| Container.image := λ _, "repo/app";
                Container.environment :=
                  λ _, [{| Ecs.name := "MODE"; Ecs.value := "provider" |}] |};
       Container.c_environment := None;
       Container.c_portMappings := None;
       Container.c_logConfiguration := None |}
  = Some [{| Ecs.name := "MODE"; Ecs.value := "provider" |}].
Proof.
  exact (proj1 (environment_is_user_then_provider "service"
    {| Container.c_image :=
         inr {| Container.image := λ _, "repo/app";
                Container.environment :=
                  λ _, [{| Ecs.name := "MODE"; Ecs.value := "provider" |}] |};
       Container.c_environment := None;
       Container.c_portMappings := None;
       Container.c_logConfiguration := None |} _ eq_refl)).
Defined.

(** ** The image of a container *)

Section ImageProperties.
Import ContainerDefinition.

Variable sha1hash : string → string.
Variable serializeFunction : Closure → string.
Variable repositoryUrl : Repository → string.
Variable registryId : Repository → string.

Local Abbreviation computeImage := (computeImage sha1hash serializeFunction repositoryUrl registryId).
Local Abbreviation computeImageFromBuild := (computeImageFromBuild sha1hash repositoryUrl registryId).
Local Abbreviation computeImagesFromBuild := (computeImagesFromBuild sha1hash repositoryUrl registryId).
Local Abbreviation getBuildImageName := (getBuildImageName sha1hash).

Lemma buildInvocations_app imageName (l1 l2 : list Effect) :
  buildInvocations imageName (l1 ++ l2)
  = buildInvocations imageName l1 + buildInvocations imageName l2.
Proof. induction l1 as [|e l1 IH]; simpl; [done|]. rewrite IH. lia. Qed.

(** What one request does to the state, by the two lookups it makes. *)
Lemma computeImageFromBuild_cases name preEnv build st :
  let key := getBuildImageName name build in
  let repository := default {| repositoryName := toLowerCase key |} (repositories st !! key) in
  let declared := match repositories st !! key with
                  | Some _ => []
                  | None => [NewRepository (toLowerCase key);
                             NewLifecyclePolicy (toLowerCase key) (toLowerCase key)]
                  end in
  computeImageFromBuild name preEnv build st
  = match buildImageCache st !! key with
    | Some unique =>
        (createImageOptions unique preEnv,
         {| repositories := <[key := repository]> (repositories st);
            buildImageCache := buildImageCache st;
            effects := effects st ++ declared |})
    | None =>
        (createImageOptions (BuiltImage (length (effects st ++ declared))) preEnv,
         {| repositories := <[key := repository]> (repositories st);
            buildImageCache :=
              <[key := BuiltImage (length (effects st ++ declared))]> (buildImageCache st);
            effects := (effects st ++ declared)
                         ++ [BuildAndPushImage key build (repositoryUrl repository)
                                               (registryId repository)] |})
    end.
Proof.
  intros key repository declared.
  unfold ContainerDefinition.computeImageFromBuild, getOrCreateRepository,
    computeImageFromBuildWorker.
  fold key. subst repository declared.
  destruct st as [repos cache effs]; simpl.
  destruct (repos !! key) as [r|] eqn:Hr; simpl;
    destruct (cache !! key) as [u|] eqn:Hc; simpl;
    rewrite ?app_nil_r, ?(insert_id repos key r Hr); reflexivity.
Qed.

(** The maps only grow: an image recorded under a name stays recorded, and
    so does a repository. *)
Lemma computeImageFromBuild_keeps name preEnv build st key unique :
  buildImageCache st !! key = Some unique →
  buildImageCache (computeImageFromBuild name preEnv build st).2 !! key = Some unique
  ∧ buildInvocations key (effects (computeImageFromBuild name preEnv build st).2)
    = buildInvocations key (effects st).
Proof.
  intros Hkey. rewrite computeImageFromBuild_cases.
  set (k := getBuildImageName name build).
  assert (buildInvocations key
            (effects st ++ match repositories st !! k with
                           | Some _ => []
                           | None => [NewRepository (toLowerCase k);
                                      NewLifecyclePolicy (toLowerCase k) (toLowerCase k)]
                           end) = buildInvocations key (effects st)) as Hdecl.
  { rewrite buildInvocations_app. destruct (repositories st !! k); simpl; lia. }
  destruct (buildImageCache st !! k) as [u|] eqn:Hk; simpl.
  - split; [exact Hkey | exact Hdecl].
  - assert (k ≠ key) as Hne by (intros ->; congruence).
    split.
    + rewrite lookup_insert_ne; done.
    + rewrite buildInvocations_app, Hdecl. simpl.
      destruct (String.eqb_spec k key); [done | lia].
Qed.

Lemma computeImageFromBuild_keeps_repository name preEnv build st key :
  is_Some (repositories st !! key) →
  is_Some (repositories (computeImageFromBuild name preEnv build st).2 !! key).
Proof.
  intros Hkey. rewrite computeImageFromBuild_cases.
  set (k := getBuildImageName name build).
  assert (is_Some (<[k := default {| repositoryName := toLowerCase k |}
                                  (repositories st !! k)]> (repositories st) !! key)) as H.
  { destruct (decide (k = key)) as [->|Hne].
    - rewrite lookup_insert_eq. eauto.
    - rewrite lookup_insert_ne; done. }
  destruct (buildImageCache st !! k); simpl; exact H.
Qed.

Lemma computeImagesFromBuild_keeps requests st key unique :
  buildImageCache st !! key = Some unique →
  is_Some (repositories st !! key) →
  buildImageCache (computeImagesFromBuild requests st).2 !! key = Some unique
  ∧ is_Some (repositories (computeImagesFromBuild requests st).2 !! key)
  ∧ buildInvocations key (effects (computeImagesFromBuild requests st).2)
    = buildInvocations key (effects st).
Proof.
  revert st. induction requests as [|[[name preEnv] build] requests IH]; intros st Hc Hr.
  - simpl. auto.
  - simpl.
    destruct (computeImageFromBuild name preEnv build st) as [o st1] eqn:H1.
    destruct (computeImageFromBuild_keeps name preEnv build st key unique Hc) as [Hc1 Hn1].
    pose proof (computeImageFromBuild_keeps_repository name preEnv build st key Hr) as Hr1.
    rewrite H1 in Hc1, Hn1, Hr1. simpl in Hc1, Hn1, Hr1.
    destruct (IH st1 Hc1 Hr1) as (Hc2 & Hr2 & Hn2).
    destruct (computeImagesFromBuild requests st1) as [os st2]. simpl in *.
    repeat split; auto. congruence.
Qed.

Lemma append_cancel (s a b : string) : s +:+ a = s +:+ b → a = b.
Proof. induction s as [|c s IH]; simpl; [done|]. intros [= H]. auto. Qed.

(** The name under which an image is cached determines the name of the
    component that asked for it. *)
Lemma getBuildImageName_name name1 name2 build :
  getBuildImageName name1 build = getBuildImageName name2 build → name1 = name2.
Proof.
  unfold ContainerDefinition.getBuildImageName. intros H.
  apply append_cancel in H. by apply append_cancel in H.
Qed.

Lemma getBuildImageName_same name1 name2 build1 build2 :
  name1 = name2 → buildSig build1 = buildSig build2 →
  getBuildImageName name1 build1 = getBuildImageName name2 build2.
Proof. unfold ContainerDefinition.getBuildImageName. by intros -> ->. Qed.

(** C5, as the code has it.  The cache is keyed by the image name, which is
    the hash of the build signature followed by the name of the component.
    Of two requests with one image name (any other requests being served
    in between), the first, finding nothing recorded, invokes the build
    once and records its output under the image name; the second gets the
    recorded output and causes no effect at all, and the build for that
    image name has been invoked exactly once in the whole run. *)
Theorem one_build_per_image_name
    (st : State) (name1 name2 : string) (env1 env2 : ContainerEnvironment)
    (build1 build2 : Build) (others : list (string * ContainerEnvironment * Build)) :
  let key := getBuildImageName name1 build1 in
  getBuildImageName name2 build2 = key →
  buildImageCache st !! key = None →
  let first := computeImageFromBuild name1 env1 build1 st in
  let between := computeImagesFromBuild others first.2 in
  let second := computeImageFromBuild name2 env2 build2 between.2 in
  (∃ invocation, o_image first.1 = BuiltImage invocation
                 ∧ effects first.2 !! invocation
                   = Some (BuildAndPushImage key build1
                             (repositoryUrl (default {| repositoryName := toLowerCase key |}
                                                      (repositories st !! key)))
                             (registryId (default {| repositoryName := toLowerCase key |}
                                                  (repositories st !! key)))))
  ∧ buildImageCache first.2 !! key = Some (o_image first.1)
  ∧ o_image second.1 = o_image first.1
  ∧ effects second.2 = effects between.2
  ∧ buildInvocations key (effects second.2) = S (buildInvocations key (effects st)).
Proof.
  intros key Hsame Hmiss first between second.
  pose proof (computeImageFromBuild_cases name1 env1 build1 st) as H1.
  fold key in H1. cbv zeta in H1. rewrite Hmiss in H1. fold first in H1.
  set (declared := match repositories st !! key with
                   | Some _ => []
                   | None => [NewRepository (toLowerCase key);
                              NewLifecyclePolicy (toLowerCase key) (toLowerCase key)]
                   end) in H1.
  assert (buildInvocations key (effects st ++ declared)
          = buildInvocations key (effects st)) as Hdecl.
  { rewrite buildInvocations_app. subst declared.
    destruct (repositories st !! key); simpl; lia. }
  assert (buildImageCache first.2 !! key = Some (o_image first.1)) as Hc1.
  { rewrite H1. simpl. apply lookup_insert_eq. }
  assert (is_Some (repositories first.2 !! key)) as Hr1.
  { rewrite H1. simpl. rewrite lookup_insert_eq. eauto. }
  assert (buildInvocations key (effects first.2) = S (buildInvocations key (effects st)))
    as Hn1.
  { rewrite H1. simpl. rewrite buildInvocations_app, Hdecl. simpl.
    rewrite String.eqb_refl. lia. }
  destruct (computeImagesFromBuild_keeps others first.2 key _ Hc1 Hr1) as (Hc2 & Hr2 & Hn2).
  fold between in Hc2, Hr2, Hn2.
  pose proof (computeImageFromBuild_cases name2 env2 build2 between.2) as H2.
  cbv zeta in H2. rewrite Hsame in H2. rewrite Hc2 in H2. fold second in H2.
  destruct Hr2 as [r Hr2]. rewrite Hr2 in H2. simpl in H2. rewrite app_nil_r in H2.
  split; [|split; [exact Hc1|split; [|split]]].
  - exists (length (effects st ++ declared)). split.
    + rewrite H1. reflexivity.
    + rewrite H1. simpl. rewrite lookup_app_r by lia.
      by rewrite Nat.sub_diag.
  - rewrite H2. reflexivity.
  - rewrite H2. reflexivity.
  - rewrite H2. simpl. congruence.
Qed.

(** C8, as the code has it.  [computeImage] rejects a definition exactly
    when none of [build], [image] and [function] is truthy, that is, when
    each is undefined or (for [build] and [image]) the empty string; it
    then throws before anything is declared or built, the state being the
    one it was called in.  In every other case it returns. *)
Theorem computeImage_requires_a_source
    (name : string) (container : ContainerDefinition) (st : State) :
  let noSource := truthyBuild (build container) = None
                  ∧ truthyString (image container) = None
                  ∧ function container = None in
  (noSource → computeImage name container st = (Throw invalidContainerDefinition, st))
  ∧ (¬ noSource → ∃ o st', computeImage name container st = (Return o, st')).
Proof.
  intros noSource. subst noSource. unfold ContainerDefinition.computeImage.
  split.
  - intros (-> & -> & ->). reflexivity.
  - intros Hsome.
    destruct (truthyBuild (build container)) as [b|].
    + destruct (ContainerDefinition.computeImageFromBuild _ _ _ _ _ _ _) as [o st'].
      eauto.
    + destruct (truthyString (image container)) as [i|]; [eauto|].
      destruct (function container) as [f|]; [eauto|].
      exfalso. apply Hsome. auto.
Qed.

End ImageProperties.

Lemma one_build_per_image_name_witness :
  ContainerDefinition.buildInvocations "./app-container-api"
    (ContainerDefinition.effects
       (ContainerDefinition.computeImageFromBuild (λ s, s)
          ContainerDefinition.repositoryName ContainerDefinition.repositoryName
          "api" ∅ (inr {| ContainerDefinition.context := Some "./app";
                          ContainerDefinition.dockerfile := None;
                          ContainerDefinition.args := None |})
          (ContainerDefinition.computeImagesFromBuild (λ s, s)
             ContainerDefinition.repositoryName ContainerDefinition.repositoryName
             [("api", ∅, inl "./db")]
             (ContainerDefinition.computeImageFromBuild (λ s, s)
                ContainerDefinition.repositoryName ContainerDefinition.repositoryName
                "api" ∅ (inl "./app") ContainerDefinition.initialState).2).2).2)
  = 1.
Proof.
  exact (proj2 (proj2 (proj2 (proj2
    (one_build_per_image_name (λ s, s)
       ContainerDefinition.repositoryName ContainerDefinition.repositoryName
       ContainerDefinition.initialState "api" "api" ∅ ∅
       (inl "./app")
       (inr {| ContainerDefinition.context := Some "./app";
               ContainerDefinition.dockerfile := None;
               ContainerDefinition.args := None |})
       [("api", ∅, inl "./db")] eq_refl eq_refl))))).
Defined.

(** Two components with different names that ask for one and the same build
    each invoke it: the second request finds nothing under its image name. *)
Lemma builds_of_two_components_are_not_shared :
  let first := ContainerDefinition.computeImageFromBuild (λ s, s)
                 ContainerDefinition.repositoryName ContainerDefinition.repositoryName
                 "api" ∅ (inl "./app") ContainerDefinition.initialState in
  let second := ContainerDefinition.computeImageFromBuild (λ s, s)
                  ContainerDefinition.repositoryName ContainerDefinition.repositoryName
                  "worker" ∅ (inl "./app") first.2 in
  ContainerDefinition.o_image first.1 = ContainerDefinition.BuiltImage 2
  ∧ ContainerDefinition.o_image second.1 = ContainerDefinition.BuiltImage 5
  ∧ ContainerDefinition.o_image first.1 ≠ ContainerDefinition.o_image second.1
  ∧ ContainerDefinition.effects second.2
    = [ContainerDefinition.NewRepository "./app-container-api";
       ContainerDefinition.NewLifecyclePolicy "./app-container-api" "./app-container-api";
       ContainerDefinition.BuildAndPushImage "./app-container-api" (inl "./app")
         "./app-container-api" "./app-container-api";
       ContainerDefinition.NewRepository "./app-container-worker";
       ContainerDefinition.NewLifecyclePolicy "./app-container-worker" "./app-container-worker";
       ContainerDefinition.BuildAndPushImage "./app-container-worker" (inl "./app")
         "./app-container-worker" "./app-container-worker"].
Proof. vm_compute. repeat split; congruence. Qed.

Lemma computeImage_requires_a_source_witness :
  ContainerDefinition.computeImage (λ s, s) (λ f, f)
    ContainerDefinition.repositoryName ContainerDefinition.repositoryName "api"
    {| ContainerDefinition.image := None; ContainerDefinition.build := None;
       ContainerDefinition.function := None; ContainerDefinition.environment := None;
       ContainerDefinition.portMappings := None;
       ContainerDefinition.logConfiguration := None |}
    ContainerDefinition.initialState
  = (Throw ContainerDefinition.invalidContainerDefinition, ContainerDefinition.initialState).
Proof.
  apply (proj1 (computeImage_requires_a_source (λ s, s) (λ f, f)
    ContainerDefinition.repositoryName ContainerDefinition.repositoryName "api"
    {| ContainerDefinition.image := None; ContainerDefinition.build := None;
       ContainerDefinition.function := None; ContainerDefinition.environment := None;
       ContainerDefinition.portMappings := None;
       ContainerDefinition.logConfiguration := None |}
    ContainerDefinition.initialState)).
  repeat split; reflexivity.
Defined.

(** A definition whose [image] is set to the empty string has a field set,
    and is rejected all the same. *)
Lemma empty_image_is_rejected :
  let container :=
    {| ContainerDefinition.image := Some ""; ContainerDefinition.build := None;
       ContainerDefinition.function := None; ContainerDefinition.environment := None;
       ContainerDefinition.portMappings := None;
       ContainerDefinition.logConfiguration := None |} in
  is_Some (ContainerDefinition.image container)
  ∧ ContainerDefinition.computeImage (λ s, s) (λ f, f)
      ContainerDefinition.repositoryName ContainerDefinition.repositoryName "api"
      container ContainerDefinition.initialState
    = (Throw ContainerDefinition.invalidContainerDefinition,
       ContainerDefinition.initialState).
Proof. split; [by eexists | reflexivity]. Qed.

(** ** Running a task *)

Section RunTaskProperties.
Import ClusterTaskDefinition.

Variable ecs_runTask : RunTaskRequest → Completion RunTaskResponse.
Variable JSON_stringify : list Failure → string.
Variables isFargate usePrivateSubnets : bool.
Variables clusterArn taskDefArn securityGroupId : string.
Variable subnetIds : list string.
Variable containerToEnvironment : Dict (option (Dict string)).

Local Abbreviation runTask :=
  (runTask ecs_runTask JSON_stringify isFargate usePrivateSubnets clusterArn taskDefArn
           securityGroupId subnetIds containerToEnvironment).
Local Abbreviation runTaskRequest :=
  (runTaskRequest isFargate usePrivateSubnets clusterArn taskDefArn securityGroupId
                  subnetIds containerToEnvironment).
Local Abbreviation chosenContainerName := (chosenContainerName containerToEnvironment).

(** C9, as the code has it.  When the response of the run request lists one
    or more failures, [runTask] writes them to the console and throws an
    [Error] whose message carries the serialised list; the promise is
    rejected and no list is returned.  The call returns normally, with no
    value, exactly when a container was found and the response lists no
    failure. *)
Theorem runTask_throws_reported_failures
    (options : TaskRunOptions) (containerName : string) (res : RunTaskResponse) :
  chosenContainerName options = Some containerName →
  ecs_runTask (runTaskRequest containerName options) = Return res →
  (∀ f fs, failures res = Some (f :: fs) →
     runTask options
     = (["Failed to start task:" +:+ JSON_stringify (f :: fs)],
        Throw (Error ("Failed to start task:" +:+ JSON_stringify (f :: fs)))))
  ∧ (runTask options = ([], Return ()) ↔ failures res = None ∨ failures res = Some []).
Proof.
  intros Hname Hres. unfold ClusterTaskDefinition.runTask. rewrite Hname, Hres.
  split.
  - intros f fs ->. reflexivity.
  - destruct (failures res) as [[|f fs]|]; split; intros H; auto; try discriminate.
    destruct H as [H|H]; discriminate.
Qed.

End RunTaskProperties.

Lemma runTask_throws_reported_failures_witness :
  ClusterTaskDefinition.runTask
    (λ _, Return {| ClusterTaskDefinition.failures :=
                      Some [{| ClusterTaskDefinition.arn := Some "arn:aws:ecs:instance/1";
                               ClusterTaskDefinition.reason := Some "RESOURCE:MEMORY" |}] |})
    (λ fs, pretty (length fs) +:+ " failure(s)")
    true false "cluster" "task" "sg-1" ["subnet-1"] [("web", None)]
    {| ClusterTaskDefinition.containerName := None; ClusterTaskDefinition.os := None;
       ClusterTaskDefinition.environment := None |}
  = (["Failed to start task:1 failure(s)"],
     Throw (Error "Failed to start task:1 failure(s)")).
Proof.
  exact (proj1 (runTask_throws_reported_failures
    (λ _, Return {| ClusterTaskDefinition.failures :=
                      Some [{| ClusterTaskDefinition.arn := Some "arn:aws:ecs:instance/1";
                               ClusterTaskDefinition.reason := Some "RESOURCE:MEMORY" |}] |})
    (λ fs, pretty (length fs) +:+ " failure(s)")
    true false "cluster" "task" "sg-1" ["subnet-1"] [("web", None)]
    {| ClusterTaskDefinition.containerName := None; ClusterTaskDefinition.os := None;
       ClusterTaskDefinition.environment := None |}
    "web" _ eq_refl eq_refl) _ _ eq_refl).
Defined.

(** A run request that reports a failure: the call does not return the
    failures, it throws. *)
Lemma reported_failures_are_thrown :
  let res := {| ClusterTaskDefinition.failures :=
                  Some [{| ClusterTaskDefinition.arn := Some "arn:aws:ecs:instance/1";
                           ClusterTaskDefinition.reason := Some "RESOURCE:MEMORY" |}] |} in
  let result :=
    ClusterTaskDefinition.runTask (λ _, Return res)
      (λ fs, pretty (length fs) +:+ " failure(s)")
      true false "cluster" "task" "sg-1" ["subnet-1"] [("web", None)]
      {| ClusterTaskDefinition.containerName := None; ClusterTaskDefinition.os := None;
         ClusterTaskDefinition.environment := None |} in
  ClusterTaskDefinition.failures res ≠ None
  ∧ isReturn result.2 = false
  ∧ result.2 = Throw (Error "Failed to start task:1 failure(s)").
Proof. vm_compute. repeat split; done. Qed.


(** ** Loops *)

Section Loops.
Context {St : Type}.
Implicit Types (body : nat → St → Completion unit * St) (s : St).

Lemma forLoop_succ body (count first : nat) s :
  Vpc.forLoop (S count) first body s
  = match body first s with
    | (Return _, s') => Vpc.forLoop count (S first) body s'
    | stopped => stopped
    end.
Proof. reflexivity. Qed.

Lemma forLoop_app body (a b first : nat) s :
  Vpc.forLoop (a + b) first body s
  = match Vpc.forLoop a first body s with
    | (Return _, s') => Vpc.forLoop b (first + a) body s'
    | stopped => stopped
    end.
Proof.
  revert first s. induction a as [|a IH]; intros first s; simpl.
  - by rewrite Nat.add_0_r.
  - destruct (body first s) as [[[]| |] s']; try reflexivity.
    rewrite IH. by replace (first + S a) with (S first + a) by lia.
Qed.

Lemma forLoop_shift body body' (count first first' : nat) s :
  (∀ j, j < count → body (first + j) = body' (first' + j)) →
  Vpc.forLoop count first body s = Vpc.forLoop count first' body' s.
Proof.
  revert first first' s. induction count as [|count IH]; intros first first' s H; simpl.
  - reflexivity.
  - pose proof (H 0 ltac:(lia)) as H0. rewrite !Nat.add_0_r in H0. rewrite H0.
    destruct (body' first' s) as [[[]| |] s']; try reflexivity.
    apply IH. intros j Hj. specialize (H (S j) ltac:(lia)).
    by replace (S first + j) with (first + S j) by lia;
       replace (S first' + j) with (first' + S j) by lia.
Qed.

(** A loop over chunks of [step] positions, each chunk walked by an inner
    loop, visits the positions one after the other. *)
Lemma stepLoop_flat (body : nat → nat → St → Completion unit * St)
    (step chunks done fuel : nat) s :
  1 ≤ step → chunks ≤ fuel →
  Vpc.stepLoop fuel ((done + chunks) * step) step (done * step)
               (λ i, Vpc.forLoop step 0 (body i)) s
  = Vpc.forLoop (chunks * step) (done * step)
                (λ k, body (k - k mod step) (k mod step)) s.
Proof.
  intros Hstep. revert done fuel s.
  induction chunks as [|chunks IH]; intros done fuel s Hfuel.
  - rewrite Nat.add_0_r. simpl. destruct fuel; simpl; by rewrite Nat.ltb_irrefl.
  - destruct fuel as [|fuel]; [lia|]. simpl Vpc.stepLoop.
    assert ((done * step <? (done + S chunks) * step) = true) as ->
      by (apply Nat.ltb_lt; nia).
    replace (S chunks * step) with (step + chunks * step) by lia.
    rewrite forLoop_app.
    rewrite (forLoop_shift (λ k, body (k - k mod step) (k mod step))
                           (body (done * step)) step (done * step) 0 s).
    2:{ intros j Hj. simpl.
        assert ((done * step + j) mod step = j) as Hmod.
        { rewrite Nat.add_comm, Nat.Div0.mod_add. by apply Nat.mod_small. }
        rewrite Hmod. f_equal. lia. }
    destruct (Vpc.forLoop step 0 (body (done * step)) s) as [[[]| |] s']; try reflexivity.
    replace ((done + S chunks) * step) with ((S done + chunks) * step) by lia.
    replace (done * step + step) with (S done * step) by lia.
    apply IH. lia.
Qed.

(** A relation that every iteration respects is respected by the loop. *)
Lemma forLoop_preserves (R : St → St → Prop) `{!PreOrder R} body (count first : nat) s :
  (∀ i s, R s (body i s).2) → R s (Vpc.forLoop count first body s).2.
Proof.
  intros Hbody. revert first s. induction count as [|count IH]; intros first s; simpl.
  - reflexivity.
  - specialize (Hbody first s).
    destruct (body first s) as [[[]| |] s']; simpl in *; try done.
    etrans; [exact Hbody | apply IH].
Qed.

Lemma stepLoop_preserves (R : St → St → Prop) `{!PreOrder R} body (fuel n step first : nat) s :
  (∀ i s, R s (body i s).2) → R s (Vpc.stepLoop fuel n step first body s).2.
Proof.
  intros Hbody. revert first s. induction fuel as [|fuel IH]; intros first s; simpl.
  - destruct (first <? n); reflexivity.
  - destruct (first <? n); [|reflexivity].
    specialize (Hbody first s).
    destruct (body first s) as [[[]| |] s']; simpl in *; try done.
    etrans; [exact Hbody | apply IH].
Qed.

End Loops.

(** ** The NAT gateways *)

Section NatGateways.
Import Vpc.

Global Instance extends_preorder : PreOrder extends.
Proof.
  split.
  - intros a. unfold extends. reflexivity.
  - intros a b c. unfold extends. apply transitivity.
Qed.

Lemma extends_declare d run : extends run (declare d run).
Proof. unfold extends, declare. simpl. by apply prefix_app_r. Qed.

(** The first loop: with a public subnet in every zone, gateway [i] is
    created in the public subnet at position [i mod zones]. *)
Lemma createNatGateways_first_loop (zones count first : nat) (run : Run) :
  1 ≤ zones → zones ≤ length (publicSubnets (this run)) →
  ∃ run' created,
    forLoop count first (createNatGateway zones) run = (Return (), run')
    ∧ publicSubnets (this run') = publicSubnets (this run)
    ∧ privateSubnets (this run') = privateSubnets (this run)
    ∧ extends run run'
    ∧ natGateways (this run') = natGateways (this run) ++ created
    ∧ length created = count
    ∧ ∀ i, i < count →
        ∃ publicSubnet,
          publicSubnets (this run) !! ((first + i) mod zones) = Some publicSubnet
          ∧ created !! i = Some (natGatewayIn (first + i) publicSubnet).
Proof.
  intros Hz. revert first run.
  induction count as [|count IH]; intros first run Hpub.
  - exists run, []. simpl. rewrite app_nil_r. repeat split; auto; try reflexivity.
    intros i Hi. lia.
  - simpl. unfold createNatGateway at 1.
    destruct (zones =? 0) eqn:Hz0; [apply Nat.eqb_eq in Hz0; lia|].
    destruct (lookup_lt_is_Some_2 (publicSubnets (this run)) (first mod zones))
      as [publicSubnet Hp].
    { pose proof (Nat.mod_upper_bound first zones). lia. }
    simpl. rewrite Hp.
    match goal with |- context [forLoop count _ _ ?r] => set (run1 := r) end.
    destruct (IH (S first) run1 Hpub)
      as (run' & created & Hloop & Hpubs & Hprivs & Hext & Hgws & Hlen & Hcreated).
    exists run', (natGatewayIn first publicSubnet :: created).
    split; [exact Hloop|]. split; [exact Hpubs|]. split; [exact Hprivs|].
    split.
    { etrans; [|exact Hext]. unfold extends. subst run1. simpl.
      rewrite <- app_assoc. by apply prefix_app_r. }
    split.
    { rewrite Hgws. subst run1. simpl. by rewrite <- app_assoc. }
    split; [simpl; lia|].
    intros [|i] Hi.
    + rewrite Nat.add_0_r. exists publicSubnet. split; [exact Hp | reflexivity].
    + destruct (Hcreated i ltac:(lia)) as (p & Hp' & Hc).
      exists p. replace (first + S i) with (S first + i) by lia.
      split; [exact Hp' | exact Hc].
Qed.

Lemma roundRobinPicks_step zones gateways k :
  roundRobinPicks zones gateways (S k)
  = if k mod zones <? gateways
    then roundRobinPicks zones gateways k
    else S (roundRobinPicks zones gateways k).
Proof. simpl. destruct (k mod zones <? gateways); lia. Qed.

(** One iteration of the second loop, at the private subnet number [k]. *)
Lemma routeThroughNatGateway_at (zones gateways k : nat) (run : Run) (privateSubnet : Subnet) :
  privateSubnets (this run) !! k = Some privateSubnet →
  routeThroughNatGateway gateways (k - k mod zones) (k mod zones)
                         (roundRobinPicks zones gateways k, run)
  = match natGateways (this run) !! gatewayIndex zones gateways k with
    | None => (Throw (TypeError "Cannot read property 'id' of undefined"),
               (roundRobinPicks zones gateways (S k), run))
    | Some natGateway =>
        let route := natRoute privateSubnet (k mod zones) natGateway in
        (Return (),
         (roundRobinPicks zones gateways (S k),
          {| this := setPrivateSubnets
                       (alter (pushRoute route) k (privateSubnets (this run)))
                       (this run);
             declared := declared run ++ [declareRoute route] |}))
    end.
Proof.
  intros Hk. unfold routeThroughNatGateway, gatewayIndex.
  assert (k - k mod zones + k mod zones = k) as ->
    by (pose proof (Nat.Div0.mod_le k zones); lia).
  rewrite Hk, roundRobinPicks_step.
  destruct (k mod zones <? gateways);
    destruct (natGateways (this run) !! _); reflexivity.
Qed.

(** The second loop, position by position, from [first] on: it stops at
    the first position [stop] whose gateway index is out of range, having
    routed the subnets before [stop] and no other. *)
Lemma createNatGateways_second_loop (zones gateways count first : nat) (run : Run) :
  first + count ≤ length (privateSubnets (this run)) →
  ∃ stop counter run',
    first ≤ stop ≤ first + count
    ∧ (∀ k, first ≤ k < stop →
         is_Some (natGateways (this run) !! gatewayIndex zones gateways k))
    ∧ (stop < first + count →
         natGateways (this run) !! gatewayIndex zones gateways stop = None)
    ∧ forLoop count first (flatBody zones gateways)
              (roundRobinPicks zones gateways first, run)
      = (if decide (stop < first + count)
         then Throw (TypeError "Cannot read property 'id' of undefined")
         else Return (),
         (counter, run'))
    ∧ natGateways (this run') = natGateways (this run)
    ∧ publicSubnets (this run') = publicSubnets (this run)
    ∧ extends run run'
    ∧ ∀ k, privateSubnets (this run') !! k
           = if decide (first ≤ k < stop)
             then routedThrough (natGateways (this run)) zones gateways k
                    <$> privateSubnets (this run) !! k
             else privateSubnets (this run) !! k.
Proof.
  revert first run. induction count as [|count IH]; intros first run Hlen.
  - exists first, (roundRobinPicks zones gateways first), run. simpl.
    split; [lia|]. split; [intros k Hk; lia|]. split; [lia|].
    split; [by rewrite decide_False by lia|].
    repeat split; try reflexivity.
    intros k. by rewrite decide_False by lia.
  - destruct (lookup_lt_is_Some_2 (privateSubnets (this run)) first ltac:(lia))
      as [privateSubnet Hfirst].
    rewrite forLoop_succ. unfold flatBody at 1.
    rewrite (routeThroughNatGateway_at zones gateways first run privateSubnet Hfirst).
    destruct (natGateways (this run) !! gatewayIndex zones gateways first)
      as [natGateway|] eqn:Hgw.
    + cbv beta iota zeta.
      match goal with |- context [forLoop count _ _ (_, ?r)] => set (run1 := r) end.
      destruct (IH (S first) run1) as
        (stop & counter & run' & Hstop & Hok & Hbad & Hloop & Hgws & Hpubs & Hext & Hprivs).
      { subst run1. simpl. rewrite length_alter. lia. }
      exists stop, counter, run'.
      split; [lia|]. split.
      { intros k Hk. destruct (decide (k = first)) as [->|Hne]; [by rewrite Hgw|].
        apply Hok. lia. }
      split.
      { intros Hlt. apply Hbad. lia. }
      split.
      { rewrite Hloop.
        replace (first + S count) with (S first + count) by lia.
        reflexivity. }
      split; [exact Hgws|]. split; [exact Hpubs|]. split.
      { etrans; [|exact Hext]. unfold extends. subst run1. simpl. by apply prefix_app_r. }
      intros k. rewrite Hprivs. subst run1. simpl.
      destruct (decide (k = first)) as [->|Hne].
      * rewrite decide_False by lia. rewrite decide_True by lia.
        rewrite list_lookup_alter_eq, Hfirst. simpl.
        unfold routedThrough. by rewrite Hgw.
      * rewrite list_lookup_alter_ne by done.
        destruct (decide (S first ≤ k < stop)).
        -- by rewrite decide_True by lia.
        -- by rewrite decide_False by lia.
    + exists first, (roundRobinPicks zones gateways (S first)), run.
      split; [lia|]. split; [intros k Hk; lia|]. split; [done|].
      split; [by rewrite decide_True by lia|].
      repeat split; try reflexivity.
      intros k. by rewrite decide_False by lia.
Qed.

(** [createNatGateways] with a public subnet in every zone, whole chunks of
    private subnets and no gateway yet: one gateway per requested number is
    created, and the private subnets are routed in order up to the first
    whose gateway index is not below the number of gateways, where the call
    throws. *)
Lemma createNatGateways_behaviour (zones gateways chunks : nat) (run : Run) :
  1 ≤ zones → 1 ≤ gateways → 1 ≤ chunks →
  zones ≤ length (publicSubnets (this run)) →
  length (privateSubnets (this run)) = chunks * zones →
  natGateways (this run) = [] →
  ∃ stop run',
    createNatGateways zones gateways run
    = (if decide (stop < chunks * zones)
       then Throw (TypeError "Cannot read property 'id' of undefined")
       else Return (),
       run')
    ∧ stop ≤ chunks * zones
    ∧ (∀ k, k < stop → gatewayIndex zones gateways k < gateways)
    ∧ (stop < chunks * zones → gateways ≤ gatewayIndex zones gateways stop)
    ∧ length (natGateways (this run')) = gateways
    ∧ (∀ i, i < gateways →
         ∃ publicSubnet,
           publicSubnets (this run) !! (i mod zones) = Some publicSubnet
           ∧ natGateways (this run') !! i = Some (natGatewayIn i publicSubnet))
    ∧ ∀ k, privateSubnets (this run') !! k
           = if decide (k < stop)
             then routedThrough (natGateways (this run')) zones gateways k
                    <$> privateSubnets (this run) !! k
             else privateSubnets (this run) !! k.
Proof.
  intros Hz Hg Hc Hpub Hpriv Hnone. unfold createNatGateways.
  assert ((length (privateSubnets (this run)) =? 0) = false) as ->
    by (apply Nat.eqb_neq; nia).
  assert ((gateways =? 0) = false) as -> by (apply Nat.eqb_neq; lia).
  assert ((length (publicSubnets (this run)) =? 0) = false) as ->
    by (apply Nat.eqb_neq; lia).
  simpl orb. cbv iota.
  destruct (createNatGateways_first_loop zones gateways 0 run Hz Hpub)
    as (run1 & created & -> & Hpubs1 & Hprivs1 & _ & Hgws1 & Hlen1 & Hcreated).
  rewrite Hnone in Hgws1. simpl in Hgws1.
  rewrite Hprivs1, Hpriv.
  pose proof (stepLoop_flat (routeThroughNatGateway gateways) zones chunks 0
                            (chunks * zones) (0, run1) Hz ltac:(nia)) as Hflat.
  simpl in Hflat. rewrite Hflat. clear Hflat.
  destruct (createNatGateways_second_loop zones gateways (chunks * zones) 0 run1)
    as (stop & counter & run' & Hstop & Hok & Hbad & Hloop & Hgws & _ & _ & Hprivs).
  { rewrite Hprivs1, Hpriv. lia. }
  unfold flatBody in Hloop. simpl in Hloop. rewrite Hloop.
  exists stop, run'. simpl in *.
  rewrite Hgws, Hgws1.
  split; [reflexivity|]. split; [lia|]. split.
  { intros k Hk. destruct (Hok k ltac:(lia)) as [gw Hgw].
    rewrite Hgws1 in Hgw. apply lookup_lt_Some in Hgw. lia. }
  split.
  { intros Hlt. specialize (Hbad Hlt). rewrite Hgws1 in Hbad.
    apply lookup_ge_None in Hbad. lia. }
  split; [exact Hlen1|]. split.
  { intros i Hi. destruct (Hcreated i Hi) as (p & Hp & Hci). by exists p. }
  intros k. rewrite Hprivs, Hprivs1, Hgws1.
  destruct (decide (k < stop)).
  - by rewrite decide_True by lia.
  - by rewrite decide_False by lia.
Qed.




(** Whenever some private subnet has a gateway index that is not below the
    number of gateways, [createNatGateways] throws. *)
Lemma createNatGateways_throws (zones gateways chunks : nat) (run : Run) (k : nat) :
  1 ≤ zones → 1 ≤ gateways →
  zones ≤ length (publicSubnets (this run)) →
  length (privateSubnets (this run)) = chunks * zones →
  natGateways (this run) = [] →
  k < chunks * zones → gateways ≤ gatewayIndex zones gateways k →
  (createNatGateways zones gateways run).1
  = Throw (TypeError "Cannot read property 'id' of undefined").
Proof.
  intros Hz Hg Hpub Hpriv Hnone Hk Hout.
  destruct (createNatGateways_behaviour zones gateways chunks run)
    as (stop & r & Hrun & Hstop & Hok & Hbad & _);
    [lia | lia | nia | lia | lia | done |].
  rewrite Hrun. simpl.
  destruct (decide (stop < chunks * zones)) as [|Hge]; [done|].
  specialize (Hok k ltac:(lia)). lia.
Qed.


End NatGateways.


(** C3, at three zones, one gateway, and one chunk of three private subnets
    beside three public ones: the gateway count is within the zone count and
    a gateway is created, and yet the third private subnet reads
    [natGateways[1]], past the only gateway; reading [id] of it throws and
    the subnet is left without a route. *)
Theorem nat_gateway_index_out_of_bounds :
  let run := Vpc.runWith ["public-0"; "public-1"; "public-2"]
                         ["private-0"; "private-1"; "private-2"] in
  let result := Vpc.createNatGateways 3 1 run in
  1 ≤ 3
  ∧ length (Vpc.natGateways (Vpc.this result.2)) = 1
  ∧ Vpc.gatewayIndex 3 1 2 = 1
  ∧ result.1 = Throw (TypeError "Cannot read property 'id' of undefined")
  ∧ Vpc.routes <$> Vpc.privateSubnets (Vpc.this result.2) !! 2 = Some [].
Proof. vm_compute. repeat split; lia. Qed.

(** ** The Vpc component *)

Section VpcProperties.
Import VpcTopology Vpc.

Variable topologyCreateSubnets :
  Vpc → string → string → nat → list VpcSubnetArgs → Completion Vpc * list Declaration.

Local Abbreviation constructor := (constructor topologyCreateSubnets).
Local Abbreviation getDefault := (getDefault topologyCreateSubnets).
Local Abbreviation getDefaultCalls := (getDefaultCalls topologyCreateSubnets).


(** C10.  A call of [getDefault] made while [defaultVpc] is unset returns
    the unset value at once: there is no lookup, nothing is declared and
    the variable stays unset, so that every call of a run, from the first
    on, returns undefined.  The lookups and the construction happen only
    in a call that finds the variable set. *)
Theorem getDefault_returns_unset_cache :
  getDefault None = (Return None, None, [])
  ∧ (∀ count, getDefaultCalls count None = (replicate count (Return None), None, []))
  ∧ (∀ defaultVpc, (getDefault defaultVpc).2 ≠ [] ↔ is_Some defaultVpc).
Proof.
  split; [reflexivity|]. split.
  - induction count as [|count IH]; simpl; [reflexivity|].
    rewrite IH. reflexivity.
  - intros [v|]; simpl.
    + split; [eauto|]. intros _. discriminate.
    + split; [done|]. intros [? [=]].
Qed.

End VpcProperties.


(** ** The partitioner *)

Section Partition.
Import VpcTopology.
Local Open Scope Z_scope.

Variable parent : CidrBlock.
Variable defaultMask : Z.

Local Abbreviation chunkSize := (chunkSize defaultMask).
Local Abbreviation chunkTotal := (chunkTotal defaultMask).






End Partition.

Section PartitionOfRequests.
Import VpcTopology.
Local Open Scope Z_scope.

Lemma requests_cons (zones : nat) (s : VpcSubnetArgs) (specs : list VpcSubnetArgs) :
  requests zones (s :: specs) = ((λ z, (s, z)) <$> seq 0 zones) ++ requests zones specs.
Proof.
  reflexivity.
Qed.

Lemma requests_length (zones : nat) (specs : list VpcSubnetArgs) :
  length (requests zones specs) = (zones * length specs)%nat.
Proof.
  induction specs as [|s specs IH]; [simpl; lia|].
  rewrite requests_cons, length_app, length_fmap, length_seq, IH, length_cons. lia.
Qed.

Lemma requests_spec (zones : nat) (specs : list VpcSubnetArgs) (pair : VpcSubnetArgs * nat) :
  pair ∈ requests zones specs → pair.1 ∈ specs.
Proof.
  induction specs as [|s specs IH]; [intros H; by apply elem_of_nil in H|].
  rewrite requests_cons, elem_of_app. intros [H|H].
  - apply list_elem_of_fmap in H as (z & -> & _). simpl. left.
  - right. by apply IH.
Qed.


Lemma chunkTotal_unmasked (defaultMask : Z) (pairs : list (VpcSubnetArgs * nat)) :
  Forall (λ pair, cidrMask pair.1 = None) pairs →
  chunkTotal defaultMask pairs = Z.of_nat (length pairs) * 2 ^ (32 - defaultMask).
Proof.
  induction 1 as [|pair pairs Hpair _ IH]; [simpl; lia|].
  cbn [chunkTotal foldr]. fold (chunkTotal defaultMask pairs). rewrite IH.
  unfold chunkSize. rewrite Hpair. simpl default. rewrite length_cons. lia.
Qed.

(** Requests that give no mask are valid as soon as the computed mask is a
    prefix length: the blocks of that mask always fit. *)
Lemma unmasked_requests_valid
    (parent : CidrBlock) (zones : nat) (specs : list VpcSubnetArgs) :
  0 ≤ mask parent ≤ 32 → (1 ≤ zones)%nat → specs ≠ [] →
  Forall (λ s, cidrMask s = None) specs →
  computeCidrMask parent zones specs ≤ 32 →
  validInput parent zones specs.
Proof.
  intros Hparent Hzones Hspecs Hnone Hmask.
  split; [exact Hparent|]. split; [exact Hzones|]. split; [exact Hspecs|]. split.
  - eapply Forall_impl; [exact Hnone|]. intros s ->. exact Hmask.
  - unfold demand. rewrite chunkTotal_unmasked.
    2:{ apply Forall_forall. intros pair Hpair. apply requests_spec in Hpair.
        rewrite Forall_forall in Hnone. by apply Hnone. }
    rewrite requests_length. unfold computeCidrMask in *. unfold blockSize.
    set (count := Z.of_nat (zones * length specs)) in *.
    pose proof (Z.log2_up_nonneg count) as Hlog.
    assert (count ≤ 2 ^ Z.log2_up count) as Hcount.
    { destruct (decide (1 < count)) as [H1|H1].
      - apply Z.log2_up_spec in H1. lia.
      - rewrite Z.log2_up_eqn0 by lia. simpl. lia. }
    replace (32 - mask parent)
      with (Z.log2_up count + (32 - (mask parent + Z.log2_up count))) by lia.
    rewrite Z.pow_add_r by lia.
    apply Z.mul_le_mono_nonneg_r; [apply Z.pow_nonneg; lia | exact Hcount].
Qed.

End PartitionOfRequests.


(** * Further properties of the code *)

(** ** utils.ts *)

(** X1.  [mergeTags]: a key of the second record has the value given there,
    any other key the value of the first record, an undefined record counting
    as empty; merging in two steps gives the same tags whichever two records
    are merged first. *)
Theorem mergeTags_second_wins (tags1 tags2 tags3 : option (gmap string string)) (key : string) :
  Utils.mergeTags tags1 tags2 !! key
  = match default ∅ tags2 !! key with
    | Some v => Some v
    | None => default ∅ tags1 !! key
    end
  ∧ Utils.mergeTags (Some (Utils.mergeTags tags1 tags2)) tags3
    = Utils.mergeTags tags1 (Some (Utils.mergeTags tags2 tags3)).
Proof.
  unfold Utils.mergeTags. split.
  - rewrite lookup_union.
    destruct (default ∅ tags2 !! key), (default ∅ tags1 !! key); reflexivity.
  - simpl. by rewrite (assoc_L (∪)).
Qed.

Lemma withAliases_aliases {Alias Rest} (opts : Utils.Options Alias Rest) (aliases : list Alias) :
  Utils.withAliases opts aliases
  = {| Utils.opt_aliases := Some aliases; Utils.opt_rest := Utils.opt_rest opts |}.
Proof. reflexivity. Qed.

(** X2.  [withAlias] does not accumulate: although the function collects the
    aliases the options already have, the object it returns carries only the
    new ones.  After any sequence of calls the options have the alias of the
    last call alone, and their other properties are unchanged. *)
Theorem withAlias_keeps_last_only {Alias Rest}
    (opts : Utils.Options Alias Rest) (earlier : list Alias) (last : Alias) :
  Utils.opt_aliases (foldl Utils.withAlias opts (earlier ++ [last])) = Some [last]
  ∧ Utils.opt_rest (foldl Utils.withAlias opts (earlier ++ [last])) = Utils.opt_rest opts.
Proof.
  rewrite foldl_app. simpl. split; [reflexivity|].
  revert opts. induction earlier as [|a earlier IH]; intros opts; simpl; [reflexivity|].
  rewrite IH. reflexivity.
Qed.

(** ** Lambda authorizers *)

Section AuthorizerProperties.
Import Authorizers.



Lemma getLocationFrom_some (l : Location) (parameters : Parameters) :
  getLocationFrom (Some l) parameters
  = Return (if sameLocation l header || anyHeader parameters then header else query).
Proof.
  induction parameters as [|[k c] parameters IH]; simpl.
  - destruct l; reflexivity.
  - destruct l, c; simpl; rewrite ?IH; simpl; reflexivity.
Qed.

(** X3.  [getLocation] throws on an empty record and on no other; otherwise
    the location is ["query"] when every parameter is a query parameter and
    ["header"] as soon as one parameter is a header. *)
Theorem getLocation_header_unless_all_query (parameters : Parameters) :
  (parameters = [] →
     getLocation parameters = Throw (Error "Could not determine parameter location"))
  ∧ (parameters ≠ [] →
       getLocation parameters
       = Return (if anyHeader parameters then header else query)).
Proof.
  split.
  - intros ->. reflexivity.
  - intros Hne. destruct parameters as [|[k c] parameters]; [done|].
    unfold getLocation. simpl. rewrite getLocationFrom_some.
    unfold anyHeader. simpl. reflexivity.
Qed.

Lemma parametersToIdentitySources_map (parameters : Parameters) :
  parametersToIdentitySources parameters
  = map (λ p, parameterToIdentitySource p.1 p.2) parameters.
Proof.
  unfold parametersToIdentitySources.
  assert (∀ acc, foldl (λ identitySource (parameter : string * Location),
                          identitySource
                          ++ [parameterToIdentitySource parameter.1 parameter.2])
                       acc parameters
                 = acc ++ map (λ p, parameterToIdentitySource p.1 p.2) parameters) as H.
  { induction parameters as [|p parameters IH]; intros acc; simpl.
    - by rewrite app_nil_r.
    - rewrite IH. by rewrite <- app_assoc. }
  apply (H []).
Qed.



(** X5.  [getRequestLambdaAuthorizerDefinition] throws exactly when there is
    no parameter.  With one parameter the definition names it and takes its
    location; with several the name is ["Unused"] and the location ["header"],
    also when all of them are query parameters.  In every definition
    returned the identity sources are those of all the parameters. *)
Theorem request_authorizer_definition {Handler} (args : RequestAuthorizerArgs Handler) :
  (r_parameters args = [] ↔
     getRequestLambdaAuthorizerDefinition args
     = Throw (Error "Must specify at least one parameter"))
  ∧ (r_parameters args ≠ [] →
       ∃ d, getRequestLambdaAuthorizerDefinition args = Return d
            ∧ identitySource d
              = Some (map (λ p, parameterToIdentitySource p.1 p.2) (r_parameters args))
            ∧ handler d = r_handler args
            ∧ (∀ k l, r_parameters args = [(k, l)] →
                 parameterName d = k ∧ parameterLocation d = l)
            ∧ (2 ≤ length (r_parameters args) →
                 parameterName d = "Unused" ∧ parameterLocation d = header)).
Proof.
  unfold getRequestLambdaAuthorizerDefinition.
  rewrite parametersToIdentitySources_map.
  destruct (r_parameters args) as [|[k l] [|p parameters]].
  - split; [done|]. intros H. done.
  - split.
    { split; [done|]. unfold getLocation. simpl. destruct l; discriminate. }
    intros _.
    assert (getLocation [(k, l)] = Return l) as -> by (destruct l; reflexivity).
    eexists. split; [reflexivity|]. simpl.
    split; [reflexivity|]. split; [reflexivity|]. split.
    + by intros k' l' [= -> ->].
    + lia.
  - split; [split; [done|discriminate]|].
    intros _. eexists. split; [reflexivity|]. simpl.
    split; [reflexivity|]. split; [reflexivity|]. split.
    + intros k' l' [=].
    + done.
Qed.

End AuthorizerProperties.

(** ** Endpoints and exposed ports of a task definition *)

Section EndpointProperties.
Import ClusterTaskDefinition.

Lemma dictGet_head {V} (key : string) (v : V) (d : Dict V) :
  dictGet ((key, v) :: d) key = Some v.
Proof. simpl. by rewrite String.eqb_refl. Qed.

Lemma portGet_recorded (ports : Ports) (key : nat) (e : Endpoint) :
  portGet ports key = Some e → (key, e) ∈ ports.
Proof.
  induction ports as [|[k v] ports IH]; simpl; [done|].
  destruct (Nat.eqb_spec k key) as [->|Hne].
  - intros [= ->]. left.
  - intros H. right. by apply IH.
Qed.

Lemma dictGet_recorded {V} (d : Dict V) (key : string) (v : V) :
  dictGet d key = Some v → (key, v) ∈ d.
Proof.
  induction d as [|[k w] d IH]; simpl; [done|].
  destruct (String.eqb_spec k key) as [->|Hne].
  - intros [= ->]. left.
  - intros H. right. by apply IH.
Qed.

(** X6.  [getEndpointHelper] without a container name and without a port
    (or with an empty name, or port 0) answers with the endpoint of the first
    port of the first container; and whatever it is asked, an endpoint it
    returns is one recorded in [endpoints] under some container and port. *)
Theorem getEndpointHelper_defaults_to_first
    (endpoints : Dict Ports) (containerName : option string) (containerPort : option nat) :
  (∀ name p e ports rest,
     endpoints = (name, (p, e) :: ports) :: rest →
     truthyString containerName = None →
     containerPort = None ∨ containerPort = Some 0 →
     getEndpointHelper endpoints containerName containerPort = Return e)
  ∧ (∀ e, getEndpointHelper endpoints containerName containerPort = Return e →
       ∃ name ports p, (name, ports) ∈ endpoints ∧ (p, e) ∈ ports).
Proof.
  split.
  - intros name p e ports rest -> Hname Hport.
    unfold getEndpointHelper. rewrite Hname. simpl. rewrite String.eqb_refl. simpl.
    destruct Hport as [-> | ->]; simpl; by rewrite Nat.eqb_refl.
  - intros e. unfold getEndpointHelper.
    destruct (match truthyString containerName with
              | Some n => Some n
              | None => fst <$> head endpoints
              end) as [name|]; [|discriminate].
    destruct (dictGet endpoints name) as [ports|] eqn:Hports; simpl default.
    + apply dictGet_recorded in Hports.
      destruct containerPort as [[|n]|]; simpl.
      * destruct (head ports) as [[p e']|] eqn:Hp; simpl; [|discriminate].
        destruct (portGet ports p) as [e''|] eqn:He; [|discriminate].
        intros [= <-]. apply portGet_recorded in He. eauto.
      * destruct (portGet ports (S n)) as [e''|] eqn:He; [|discriminate].
        intros [= <-]. apply portGet_recorded in He. eauto.
      * destruct (head ports) as [[p e']|] eqn:Hp; simpl; [|discriminate].
        destruct (portGet ports p) as [e''|] eqn:He; [|discriminate].
        intros [= <-]. apply portGet_recorded in He. eauto.
    + destruct containerPort as [[|n]|]; simpl; discriminate.
Qed.

(** X7.  The errors of [getEndpointHelper].  It reports that no containers
    are available exactly when no name is given and there is no container.
    The error "No ports available in service container ..." is never thrown:
    the port is a number in every case, so a container without ports (or an
    unknown container) asked for its default port is reported as having no
    exposed port [NaN]. *)
Theorem getEndpointHelper_errors
    (endpoints : Dict Ports) (containerName : option string) (containerPort : option nat) :
  (getEndpointHelper endpoints containerName containerPort
   = Throw (Error "No containers available in this service")
   ↔ truthyString containerName = None ∧ endpoints = [])
  ∧ (∀ name, getEndpointHelper endpoints containerName containerPort
             ≠ Throw (Error ("No ports available in service container " +:+ name)))
  ∧ (∀ name, truthyString containerName = Some name →
       default [] (dictGet endpoints name) = [] →
       containerPort = None ∨ containerPort = Some 0 →
       getEndpointHelper endpoints containerName containerPort
       = Throw (Error ("No exposed port for " +:+ name +:+ " port NaN"))).
Proof.
  unfold getEndpointHelper.
  destruct (truthyString containerName) as [name|] eqn:Hname.
  - split; [|split].
    + split; [|intros [? _]; discriminate].
      destruct containerPort as [[|n]|]; simpl;
        repeat (match goal with |- context [match ?x with _ => _ end] => destruct x end);
        simpl; intros H; discriminate H || (injection H as H; discriminate H).
    + intros name'.
      destruct containerPort as [[|n]|]; simpl;
        repeat (match goal with |- context [match ?x with _ => _ end] => destruct x end);
        simpl; intros H; discriminate H || (injection H as H; discriminate H).
    + intros name' [= <-] Hempty Hport. rewrite Hempty.
      destruct Hport as [-> | ->]; reflexivity.
  - split; [|split].
    + destruct endpoints as [|[name ports] rest]; simpl.
      * split; [done|reflexivity].
      * split; [|intros [_ ?]; discriminate].
        destruct containerPort as [[|n]|]; simpl;
          repeat (match goal with |- context [match ?x with _ => _ end] => destruct x end);
          simpl; intros H; discriminate H || (injection H as H; discriminate H).
    + intros name'. destruct endpoints as [|[name ports] rest]; simpl.
      * intros H. injection H as H. discriminate H.
      * destruct containerPort as [[|n]|]; simpl;
          repeat (match goal with |- context [match ?x with _ => _ end] => destruct x end);
          simpl; intros H; discriminate H || (injection H as H; discriminate H).
    + intros name' [=].
Qed.

End EndpointProperties.

Section ExposedPortProperties.
Import ClusterTaskDefinition.
Context {LoadBalancerPort : Type}.

Local Abbreviation getExposedPort := (@getExposedPort LoadBalancerPort).
Local Abbreviation getExposedPortFrom := (@getExposedPortFrom LoadBalancerPort).
Local Abbreviation withLoadBalancerPort := (@withLoadBalancerPort LoadBalancerPort).
Local Abbreviation exposedPortOf := (@exposedPortOf LoadBalancerPort).

Lemma getExposedPortFrom_some (name : string) (exposed : ExposedPort LoadBalancerPort)
    (created : list (ClusterLoadBalancer LoadBalancerPort))
    (containers : Dict (option LoadBalancerPort)) :
  getExposedPortFrom name (Some exposed) created containers
  = match withLoadBalancerPort containers with
    | [] => (Return (Some exposed), created)
    | _ => (Throw (Error "Only a single container can specify a [loadBalancerPort]."),
            created)
    end.
Proof.
  induction containers as [|[containerName [p|]] containers IH]; simpl; [done|done|].
  exact IH.
Qed.

(** X8.  [getExposedPort] by the containers that specify a
    [loadBalancerPort]: with none it returns undefined and creates no load
    balancer; with exactly one it returns that container with the load
    balancer it created for it, named after the task and the container;
    with more it throws, the load balancer of the first of them having been
    created already and no other. *)
Theorem getExposedPort_single_container
    (name : string) (containers : Dict (option LoadBalancerPort)) :
  getExposedPort name containers
  = match withLoadBalancerPort containers with
    | [] => (Return None, [])
    | [(containerName, loadBalancerPort)] =>
        (Return (Some (exposedPortOf name containerName loadBalancerPort)),
         [exposedLoadBalancer _ (exposedPortOf name containerName loadBalancerPort)])
    | (containerName, loadBalancerPort) :: _ =>
        (Throw (Error "Only a single container can specify a [loadBalancerPort]."),
         [exposedLoadBalancer _ (exposedPortOf name containerName loadBalancerPort)])
    end.
Proof.
  unfold ClusterTaskDefinition.getExposedPort.
  induction containers as [|[containerName [p|]] containers IH]; simpl; [done| |exact IH].
  rewrite getExposedPortFrom_some.
  destruct (withLoadBalancerPort containers) as [|[k q] more]; reflexivity.
Qed.

End ExposedPortProperties.

Section RunRequestProperties.
Import ClusterTaskDefinition.

Lemma addEnvironmentVariables_app (env : list Ecs.KeyValuePair) (e : option (Dict string)) :
  addEnvironmentVariables env e = env ++ nonEmptyVariables e.
Proof.
  unfold addEnvironmentVariables, nonEmptyVariables.
  destruct e as [e|]; simpl; [|by rewrite app_nil_r].
  revert env. induction e as [|[k v] e IH]; intros env; simpl; [by rewrite app_nil_r|].
  rewrite IH. unfold truthyString.
  destruct (String.eqb v ""); simpl; [reflexivity|].
  by rewrite <- app_assoc.
Qed.

(** X9.  The environment override of the run request: the variables of the
    container that runs and then those of the options, each record in its
    order, without the variables whose value is empty; a variable of both
    records appears twice, the one of the options last.  The override is
    addressed to the name ["container"], whichever container was chosen. *)
Theorem run_request_environment
    (isFargate usePrivateSubnets : bool) (clusterArn taskDefArn securityGroupId : string)
    (subnetIds : list string) (containerToEnvironment : Dict (option (Dict string)))
    (containerName : string) (options : TaskRunOptions) :
  let request := runTaskRequest isFargate usePrivateSubnets clusterArn taskDefArn
                                securityGroupId subnetIds containerToEnvironment
                                containerName options in
  let env := nonEmptyVariables (mjoin (dictGet containerToEnvironment containerName))
             ++ nonEmptyVariables (environment options) in
  containerOverrides request
  = [{| override_name := "container"; override_environment := env |}]
  ∧ Forall (λ kv, Ecs.value kv ≠ "") env.
Proof.
  intros request env. split.
  - subst request env. unfold runTaskRequest. simpl.
    by rewrite !addEnvironmentVariables_app.
  - subst env. apply Forall_app. split.
    all: unfold nonEmptyVariables; apply Forall_fmap, Forall_forall; intros [k v] Hin;
      apply list_elem_of_In, filter_In in Hin as [_ Hv]; simpl in *;
      destruct (String.eqb_spec v ""); [discriminate|done].
Qed.

End RunRequestProperties.

(** ** Containers with image providers *)

Section ContainerProperties.
Import Ecs Container.

Lemma resolve_mappings (objs : list (PortMapping + ContainerPortMappingProvider))
    (acc : list PortMapping) :
  foldl (λ result (obj : PortMapping + ContainerPortMappingProvider),
           result ++ [match obj with
                      | inr provider => containerPortMapping provider ()
                      | inl mapping => mapping
                      end]) acc objs
  = acc ++ map resolveMapping objs.
Proof.
  revert acc. induction objs as [|o objs IH]; intros acc; simpl.
  - by rewrite app_nil_r.
  - rewrite IH. by rewrite <- app_assoc.
Qed.

(** X10.  [getPortMappings] is undefined exactly for a container without
    [portMappings].  Otherwise there is one mapping per entry, at the same
    position, taken from the entry itself or asked of its provider, and every
    mapping returned has a host port. *)
Theorem getPortMappings_resolves_every_entry (container : Container) :
  (getPortMappings container = None ↔ c_portMappings container = None)
  ∧ (∀ objs, c_portMappings container = Some objs →
       ∃ mappings,
         getPortMappings container = Some mappings
         ∧ length mappings = length objs
         ∧ (∀ i obj, objs !! i = Some obj →
              mappings !! i = Some (convertMapping (resolveMapping obj)))
         ∧ Forall (λ m, is_Some (hostPort m)) mappings).
Proof.
  unfold getPortMappings. split.
  - destruct (c_portMappings container); split; intros H; done.
  - intros objs ->. eexists. split; [reflexivity|].
    rewrite convertMappings_map, (resolve_mappings objs []). simpl.
    split; [by rewrite !length_map|]. split.
    + intros i obj Hobj. by rewrite !list_lookup_fmap, Hobj.
    + apply Forall_fmap, Forall_fmap, Forall_forall. intros obj _. simpl.
      destruct (convertMapping_hostPort (resolveMapping obj)) as [-> _]. eauto.
Qed.

(** X11.  Normalising port mappings twice is normalising them once, in
    [convertMappings] as in [computePortMappings]. *)
Theorem normalising_port_mappings_is_idempotent (mappings : list PortMapping) :
  convertMappings (convertMappings mappings) = convertMappings mappings
  ∧ ContainerDefinition.computePortMappings
      (Some (ContainerDefinition.computePortMappings (Some mappings)))
    = ContainerDefinition.computePortMappings (Some mappings).
Proof.
  assert (∀ m, convertMapping (convertMapping m) = convertMapping m) as Hidem.
  { intros [c [h|] p]; reflexivity. }
  split.
  - rewrite !convertMappings_map, map_map. apply map_ext. intros m. apply Hidem.
  - unfold ContainerDefinition.computePortMappings. simpl.
    rewrite map_map. apply map_ext. intros m. apply Hidem.
Qed.

End ContainerProperties.

(** ** Repositories, build signatures and images *)

Section RepositoryProperties.
Import ContainerDefinition.

Variable sha1hash : string → string.
Variable serializeFunction : Closure → string.
Variable repositoryUrl : Repository → string.
Variable registryId : Repository → string.

Local Abbreviation computeImage := (computeImage sha1hash serializeFunction repositoryUrl registryId).
Local Abbreviation computeImageFromBuild := (computeImageFromBuild sha1hash repositoryUrl registryId).
Local Abbreviation getBuildImageName := (getBuildImageName sha1hash).

(** X12.  [getOrCreateRepository] declares the repository of an image name
    once: a second call for the name returns the repository of the first and
    leaves the state, effects included, as it was; and the first call adds
    either nothing or the repository and its lifecycle policy. *)
Theorem repository_is_created_once (imageName : string) (st : State) :
  let first := getOrCreateRepository imageName st in
  getOrCreateRepository imageName first.2 = (first.1, first.2)
  ∧ repositories first.2 !! imageName = Some first.1
  ∧ (effects first.2 = effects st
     ∨ effects first.2
       = effects st ++ [NewRepository (toLowerCase imageName);
                        NewLifecyclePolicy (toLowerCase imageName) (toLowerCase imageName)]).
Proof.
  unfold getOrCreateRepository.
  destruct (repositories st !! imageName) as [r|] eqn:Hr; simpl.
  - rewrite Hr. auto.
  - rewrite lookup_insert_eq. auto.
Qed.

(** X13.  The repositories are remembered by image name but declared under
    the lower-cased name: two image names that differ only in the case of
    their letters, neither seen before, each declare a repository and a
    lifecycle policy, all four under one and the same resource name. *)
Theorem repositories_of_names_differing_in_case (name1 name2 : string) (st : State) :
  name1 ≠ name2 → toLowerCase name1 = toLowerCase name2 →
  repositories st !! name1 = None → repositories st !! name2 = None →
  let resource := toLowerCase name1 in
  effects (getOrCreateRepository name2 (getOrCreateRepository name1 st).2).2
  = effects st ++ [NewRepository resource; NewLifecyclePolicy resource resource;
                   NewRepository resource; NewLifecyclePolicy resource resource].
Proof.
  intros Hne Hlower H1 H2 resource. unfold getOrCreateRepository.
  rewrite H1. simpl. rewrite lookup_insert_ne by done. rewrite H2. simpl.
  subst resource. rewrite <- Hlower, <- app_assoc. reflexivity.
Qed.

(** X14.  The order of the sources of an image.  A truthy [build] decides
    alone: the result is the same whatever [image] and [function] are, so
    that [image] does not name or tag the image built.  Without a build a
    truthy [image] decides, and a [function] given beside it is ignored, not
    rejected. *)
Theorem build_then_image_then_function
    (name : string) (container other : ContainerDefinition) (st : State) :
  (∀ b, truthyBuild (build container) = Some b →
     build other = build container → environment other = environment container →
     computeImage name other st = computeImage name container st
     ∧ computeImage name container st
       = (Return (computeImageFromBuild name (default ∅ (environment container)) b st).1,
          (computeImageFromBuild name (default ∅ (environment container)) b st).2))
  ∧ (∀ i, truthyBuild (build container) = None → truthyString (image container) = Some i →
       computeImage name container st
       = (Return (createImageOptions (ImageName i) (default ∅ (environment container))), st)).
Proof.
  split.
  - intros b Hb Hbuild Henv. unfold ContainerDefinition.computeImage.
    rewrite Hbuild, Henv, Hb. split; [reflexivity|].
    by destruct (ContainerDefinition.computeImageFromBuild _ _ _ _ _ _ _).
  - intros i Hb Hi. unfold ContainerDefinition.computeImage. by rewrite Hb, Hi.
Qed.

(** X15.  A container given by a function runs the image of the node
    runner, with the serialised function in the variable [PULUMI_SRC]: a
    value the user gave to that variable is replaced, every other variable
    is the user's, and nothing is declared or built. *)
Theorem function_container_environment
    (name : string) (container : ContainerDefinition) (func : Closure) (st : State) :
  truthyBuild (build container) = None → truthyString (image container) = None →
  function container = Some func →
  ∃ o, computeImage name container st = (Return o, st)
       ∧ o_image o = ImageName "lukehoban/nodejsrunner"
       ∧ o_environment o !! "PULUMI_SRC" = Some (serializeFunction func)
       ∧ ∀ key, key ≠ "PULUMI_SRC" →
           o_environment o !! key = default ∅ (environment container) !! key.
Proof.
  intros Hb Hi Hf. unfold ContainerDefinition.computeImage. rewrite Hb, Hi, Hf.
  eexists. split; [reflexivity|]. simpl.
  split; [reflexivity|]. split; [apply lookup_insert_eq|].
  intros key Hkey. by rewrite lookup_insert_ne.
Qed.

Lemma truthyString_nonempty (s : string) : s ≠ "" → truthyString (Some s) = Some s.
Proof. intros H. simpl. by destruct (String.eqb_spec s ""). Qed.

(** X16.  The build signature is the rendered text only.  A build given as
    the string [c] and the object [{ context: c }] have one signature, and
    so have the object [{ context: c, dockerfile: d }] and the string
    [c;dockerfile=d]; an object without context counts as the context ["."].
    Builds with one signature asked for under one name share the cached
    image: after the first request the second adds no effect and gets the
    image of the first. *)
Theorem build_signature_is_the_rendered_text
    (c d name : string) (build1 build2 : Build) (env1 env2 : ContainerEnvironment)
    (st : State) :
  c ≠ "" → d ≠ "" →
  (buildSig (inr {| context := Some c; dockerfile := None; args := None |}) = buildSig (inl c)
   ∧ buildSig (inr {| context := Some c; dockerfile := Some d; args := None |})
     = buildSig (inl (c +:+ ";dockerfile=" +:+ d))
   ∧ buildSig (inr {| context := None; dockerfile := None; args := None |})
     = buildSig (inl "."))
  ∧ (buildSig build1 = buildSig build2 →
     let first := computeImageFromBuild name env1 build1 st in
     let second := computeImageFromBuild name env2 build2 first.2 in
     o_image second.1 = o_image first.1 ∧ effects second.2 = effects first.2).
Proof.
  intros Hc Hd. split.
  - unfold buildSig. simpl context. simpl dockerfile. simpl args.
    rewrite !truthyString_nonempty by done. simpl. auto.
  - intros Hsig first second.
    assert (getBuildImageName name build2 = getBuildImageName name build1) as Hkey
      by (unfold ContainerDefinition.getBuildImageName; by rewrite Hsig).
    pose proof (computeImageFromBuild_cases sha1hash repositoryUrl registryId
                  name env1 build1 st) as H1.
    cbv zeta in H1. fold first in H1.
    set (key := getBuildImageName name build1) in *.
    assert (∃ u, buildImageCache first.2 !! key = Some u ∧ o_image first.1 = u
                 ∧ is_Some (repositories first.2 !! key)) as (u & Hu & Hfirst & [r Hr]).
    { rewrite H1. destruct (buildImageCache st !! key) as [u|] eqn:Hc1; simpl.
      - exists u. rewrite lookup_insert_eq. eauto.
      - eexists. rewrite !lookup_insert_eq. eauto. }
    pose proof (computeImageFromBuild_cases sha1hash repositoryUrl registryId
                  name env2 build2 first.2) as H2.
    cbv zeta in H2. fold second in H2. rewrite Hkey in H2. fold key in H2.
    rewrite Hu, Hr in H2. simpl in H2. rewrite app_nil_r in H2.
    rewrite H2. simpl. auto.
Qed.

End RepositoryProperties.

Section ServiceNameProperties.
Import ContainerDefinition.

Lemma replaced_upper_character (c : ascii) :
  let c' := if Ascii.eqb (upperAscii c) "-" then "_"%char else upperAscii c in
  c' ≠ "-"%char ∧ lowerCaseLetter c' = false
  ∧ upperAscii c' = c'
  ∧ (lowerCaseLetter c = false → c ≠ "-"%char → c' = c)
  ∧ (asciiCharacter c = true → asciiCharacter c' = true).
Proof.
  destruct c as [[] [] [] [] [] [] [] []]; vm_compute; repeat split; congruence.
Qed.

(** X17.  [makeServiceEnvName] on a name of ASCII characters: the result
    has the length of the name, no hyphen and no lower-case letter; making
    the name of the result changes nothing; and a name that has no hyphen
    and no lower-case letter is returned as it is. *)
Theorem makeServiceEnvName_form (service : string) :
  Forall (λ c, asciiCharacter c = true) (list_ascii_of_string service) →
  String.length (makeServiceEnvName service) = String.length service
  ∧ Forall (λ c, c ≠ "-"%char ∧ lowerCaseLetter c = false ∧ asciiCharacter c = true)
           (list_ascii_of_string (makeServiceEnvName service))
  ∧ makeServiceEnvName (makeServiceEnvName service) = makeServiceEnvName service
  ∧ (Forall (λ c, c ≠ "-"%char ∧ lowerCaseLetter c = false) (list_ascii_of_string service)
     → makeServiceEnvName service = service).
Proof.
  unfold makeServiceEnvName.
  induction service as [|c service IH]; simpl; intros Hascii.
  - repeat split; constructor.
  - apply Forall_cons in Hascii as [Hc Hascii].
    destruct (IH Hascii) as (IHlen & IHform & IHidem & IHsame).
    destruct (replaced_upper_character c) as (Hhyphen & Hlower & Hupper & Hkeep & Hin).
    cbv zeta in *.
    set (c' := if Ascii.eqb (upperAscii c) "-" then "_"%char else upperAscii c) in *.
    split; [by rewrite IHlen|]. split; [constructor; auto|]. split.
    + rewrite Hupper.
      destruct (Ascii.eqb_spec c' "-"); [done|]. by rewrite IHidem.
    + intros Hall. apply Forall_cons in Hall as [[Hc1 Hc2] Hall].
      rewrite (Hkeep Hc2 Hc1). by rewrite IHsame.
Qed.

End ServiceNameProperties.

(** ** Gateways of a Vpc *)

Section GatewayProperties.
Import VpcTopology Vpc.


Global Instance subnetGrows_preorder : PreOrder subnetGrows.
Proof.
  split.
  - intros s. split; reflexivity.
  - intros s s' s'' [H1 H2] [H3 H4]. split; [congruence|by etrans].
Qed.

Global Instance grows_preorder : PreOrder grows.
Proof.
  split.
  - intros a. unfold grows. repeat split; reflexivity.
  - intros a b c (Hp & Hi & Hg & Hn & Hd & Hr) (Hp' & Hi' & Hg' & Hn' & Hd' & Hr').
    unfold grows. split; [congruence|]. split; [congruence|]. split; [congruence|].
    split; [by etrans|]. split; [by etrans|]. by etrans.
Qed.

Lemma createNatGateway_grows (zones i : nat) (run : Run) :
  grows run (createNatGateway zones i run).2.
Proof.
  unfold createNatGateway, grows.
  destruct (if zones =? 0 then _ else _); simpl.
  - repeat split; try reflexivity.
    + by apply prefix_app_r.
    + rewrite <- app_assoc. by apply prefix_app_r.
  - repeat split; try reflexivity.
    + by apply prefix_app_r.
Qed.

Lemma routeThroughNatGateway_grows (gateways i j : nat) (s : nat * Run) :
  grows s.2 (routeThroughNatGateway gateways i j s).2.2.
Proof.
  destruct s as [counter run]. unfold routeThroughNatGateway.
  assert (grows run run) as Hrefl by reflexivity.
  destruct (j <? gateways);
    [destruct (natGateways (this run) !! j)
    |destruct (natGateways (this run) !! counter)];
    destruct (privateSubnets (this run) !! (i + j)) as [ps|] eqn:Hps; simpl; try exact Hrefl.
  all: unfold grows; simpl; repeat split; try reflexivity; try (by apply prefix_app_r).
  all: apply Forall2_same_length_lookup; split; [by rewrite length_alter|].
  all: intros k s s' Hs Hs'; destruct (decide (k = i + j)) as [->|Hne].
  all: try (rewrite list_lookup_alter_eq, Hs in Hs'; injection Hs' as <-; simpl;
            split; [reflexivity | by apply prefix_app_r]).
  all: rewrite list_lookup_alter_ne in Hs' by done; rewrite Hs in Hs';
       injection Hs' as <-; done.
Qed.

Lemma createNatGateways_only_adds_grows (zones gateways : nat) (run : Run) :
  grows run (createNatGateways zones gateways run).2.
Proof.
  { unfold createNatGateways.
    destruct (_ || _ || _); [reflexivity|].
    pose proof (forLoop_preserves grows (createNatGateway zones) gateways 0 run
                  (createNatGateway_grows zones)) as H1.
    destruct (forLoop gateways 0 (createNatGateway zones) run) as [[[]| |] run1];
      simpl in *; try exact H1.
    set (R := λ a b : nat * Run, grows a.2 b.2).
    assert (PreOrder R) as HR.
    { split; [intros a; unfold R; reflexivity|].
      intros a b c; unfold R; apply transitivity. }
    pose proof (stepLoop_preserves R
      (λ i, forLoop zones 0 (routeThroughNatGateway gateways i))
      (length (privateSubnets (this run1))) (length (privateSubnets (this run1)))
      zones 0 (0, run1)) as H2.
    destruct (stepLoop _ _ _ _ _ _) as [completion [counter run2]]. simpl in *.
    etrans; [exact H1|apply H2].
    intros i s. apply (forLoop_preserves R). intros j s'.
    apply routeThroughNatGateway_grows. }
Qed.

(** X19.  [createNatGateways] only adds, whatever it is called with and
    whether it returns or throws: the public and isolated subnets and the
    internet gateway are untouched, the private subnets keep their number,
    order and names, and no route, NAT gateway or declaration that existed
    is removed or changed. *)
Theorem createNatGateways_only_adds (zones gateways : nat) (run : Run) :
  let run' := (createNatGateways zones gateways run).2 in
  publicSubnets (this run') = publicSubnets (this run)
  ∧ isolatedSubnets (this run') = isolatedSubnets (this run)
  ∧ internetGateway (this run') = internetGateway (this run)
  ∧ natGateways (this run) `prefix_of` natGateways (this run')
  ∧ declared run `prefix_of` declared run'
  ∧ length (privateSubnets (this run')) = length (privateSubnets (this run))
  ∧ ∀ k s, privateSubnets (this run) !! k = Some s →
      ∃ s', privateSubnets (this run') !! k = Some s'
            ∧ subnetName s' = subnetName s ∧ routes s `prefix_of` routes s'.
Proof.
  intros run'.
  destruct (createNatGateways_only_adds_grows zones gateways run)
    as (Hp & Hi & Hg & Hn & Hd & Hr). fold run' in Hp, Hi, Hg, Hn, Hd, Hr.
  split; [exact Hp|]. split; [exact Hi|]. split; [exact Hg|]. split; [exact Hn|].
  split; [exact Hd|]. split; [symmetry; by eapply Forall2_length|].
  intros k s Hs. destruct (Forall2_lookup_l _ _ _ _ _ Hr Hs) as (s' & Hs' & H1 & H2).
  eauto.
Qed.







Section ConstructorProperties.
Variable topologyCreateSubnets :
  Vpc → string → string → nat → list VpcSubnetArgs → Completion Vpc * list Declaration.


(** X22.  The constructor on [ExistingVpcArgs].  With a truthy [vpcId] it
    registers the component alone and builds nothing: the ids are those
    given, undefined lists counting as empty, there are no subnets and no
    gateways, and the security group ids given are not kept.  With an empty
    [vpcId] the arguments are not taken for an existing Vpc: the constructor
    does what it does for [VpcArgs] without any field, and builds a new Vpc
    with the defaults. *)
Theorem constructor_of_existing_vpc (name : string) (existing : ExistingVpcArgs) :
  (truthyInput (e_vpcId existing) = true →
     ∃ vpc, constructor topologyCreateSubnets name (inr existing)
            = (Return vpc, [vpcComponent name])
            ∧ vpcId vpc = e_vpcId existing
            ∧ publicSubnetIds vpc = default [] (e_publicSubnetIds existing)
            ∧ privateSubnetIds vpc = default [] (e_privateSubnetIds existing)
            ∧ isolatedSubnetIds vpc = default [] (e_isolatedSubnetIds existing)
            ∧ securityGroupIds vpc = []
            ∧ publicSubnets vpc = [] ∧ privateSubnets vpc = []
            ∧ internetGateway vpc = None ∧ natGateways vpc = [])
  ∧ (truthyInput (e_vpcId existing) = false →
       constructor topologyCreateSubnets name (inr existing)
       = constructor topologyCreateSubnets name
           (inl {| subnets := None; numberOfAvailabilityZones := None;
                   numberOfNatGateways := None; cidrBlock := None |})).
Proof.
  unfold constructor. cbn [isExistingVpcArgs]. split.
  - intros ->. eexists. split; [reflexivity|]. simpl.
    by destruct (e_publicSubnetIds existing), (e_privateSubnetIds existing),
                (e_isolatedSubnetIds existing).
  - intros ->. reflexivity.
Qed.

End ConstructorProperties.

End GatewayProperties.

(** ** Security groups *)

Section SecurityGroupProperties.
Import Vpc SecurityGroup.
Context {VpcObject World : Type}.
Variable getDefault : World → Completion (option VpcObject) * World.

(** X23.  What the constructor of [SecurityGroup] asks of the engine.  It
    registers its component first, in every case.  It declares a cloud
    security group exactly when it was given none and has a vpc, its own
    or the default one, and then it returns a component with that new
    group.  With a vpc in its arguments it does not call [getDefault] and
    cannot fail. *)
Theorem constructor_declares_group_iff_none_given
    (name : string) (args : SecurityGroupArgs VpcObject) (world : World) :
  let result := constructor getDefault name args world in
  (∃ later, result.2 = Registered (securityGroupComponent name) :: later
            ∧ (later = [] ∨ later = [Registered (awsSecurityGroup name)]))
  ∧ (In (Registered (awsSecurityGroup name)) result.2
     ↔ a_securityGroup args = None
       ∧ ∃ v, result.1.1 = Return {| componentName := name;
                                      securityGroup := newSecurityGroup name v;
                                      vpc := Some v |})
  ∧ (∀ v, a_vpc args = Some v →
       result.1.2 = world
       ∧ result.1.1 = Return {| componentName := name;
                                securityGroup := default (newSecurityGroup name v)
                                                         (a_securityGroup args);
                                vpc := Some v |}).
Proof.
  unfold constructor. cbv zeta.
  assert (∀ d : Declaration, kind d = component →
            ¬ In (Registered (awsSecurityGroup name)) [Registered d]) as Hnot.
  { intros d Hd [Heq|[]]. injection Heq as ->. discriminate Hd. }
  destruct (a_vpc args) as [v|].
  - destruct (a_securityGroup args) as [g|]; simpl.
    + split; [eauto|]. split.
      * split; [intros H; by apply Hnot in H|]. intros [? _]. discriminate.
      * intros ? [= <-]. done.
    + split; [eauto|]. split.
      * split; [eauto|]. intros _. right. by left.
      * intros ? [= <-]. done.
  - destruct (getDefault world) as [[[v|]| |] world'];
      destruct (a_securityGroup args) as [g|]; simpl;
      (split; [eauto|]); (split; [|intros ? [=]]).
    all: try (split; [intros H; by apply Hnot in H|]).
    all: try (intros [? _]; discriminate).
    all: try (intros [_ [? ?]]; discriminate).
    split; [eauto|]. intros _. right. by left.
Qed.

Lemma getSecurityGroupsFrom_returns (vpc : VpcObject) (name : string)
    (args : list (SecurityGroup VpcObject + Input)) :
  ∀ i result world events,
  ∃ groups more,
    getSecurityGroupsFrom getDefault vpc name i args result world events
    = (Return (result ++ groups), world, events ++ more)
    ∧ length groups = length args
    ∧ (∀ k arg, args !! k = Some arg →
         ∃ group, groups !! k = Some group ∧ isGroupOf vpc name (i + k) arg group)
    ∧ Forall isLookupOrComponent more.
Proof.
  induction args as [|arg args IH]; intros i result world events.
  - exists [], []. simpl. rewrite !app_nil_r. repeat split; [|constructor].
    intros k arg H. by rewrite lookup_nil in H.
  - destruct arg as [given|id]; simpl.
    + destruct (IH (S i) (result ++ [given]) world events)
        as (groups & more & -> & Hlen & Hat & Hmore).
      exists (given :: groups), more. rewrite <- app_assoc. simpl.
      split; [reflexivity|]. split; [by rewrite Hlen|]. split; [|exact Hmore].
      intros [|k] arg Harg; simpl in *.
      * injection Harg as <-. exists given. rewrite Nat.add_0_r. done.
      * destruct (Hat k arg Harg) as (group & ? & ?). exists group.
        by replace (i + S k) with (S i + k) by lia.
    + destruct (IH (S i) (result ++ [wrapped vpc name i id]) world
                   (events ++ [GetSecurityGroup (name +:+ "-" +:+ pretty i) id;
                               Registered (securityGroupComponent
                                             (name +:+ "-" +:+ pretty i))]))
        as (groups & more & Hrun & Hlen & Hat & Hmore).
      unfold wrapped in Hrun. rewrite Hrun.
      eexists (wrapped vpc name i id :: groups), (_ :: _ :: more).
      rewrite <- !app_assoc. simpl.
      split; [reflexivity|]. split; [by rewrite Hlen|]. split.
      * intros [|k] arg Harg; simpl in *.
        -- injection Harg as <-. eexists. rewrite Nat.add_0_r. done.
        -- destruct (Hat k arg Harg) as (group & ? & ?). exists group.
           by replace (i + S k) with (S i + k) by lia.
      * repeat constructor. exact Hmore.
Qed.

(** X24.  [getSecurityGroups] keeps the number and the order of its
    arguments: a [SecurityGroup] is passed on as it is, and the id at
    position [i] becomes a component named [name-i] around the group read
    by that id, with the vpc of the call.  The call always returns, never
    calls [getDefault] and never declares a cloud resource. *)
Theorem getSecurityGroups_wraps_ids (vpc : VpcObject) (name : string)
    (args : list (SecurityGroup VpcObject + Input)) (world : World) :
  ∃ groups events,
    getSecurityGroups getDefault vpc name (Some args) world
    = (Return (Some groups), world, events)
    ∧ length groups = length args
    ∧ (∀ i given, args !! i = Some (inl given) → groups !! i = Some given)
    ∧ (∀ i id, args !! i = Some (inr id) → groups !! i = Some (wrapped vpc name i id))
    ∧ Forall isLookupOrComponent events.
Proof.
  unfold getSecurityGroups.
  destruct (getSecurityGroupsFrom_returns vpc name args 0 [] world [])
    as (groups & more & -> & Hlen & Hat & Hmore). simpl.
  exists groups, more. split; [reflexivity|]. split; [exact Hlen|].
  split; [|split; [|exact Hmore]].
  - intros i given Harg. destruct (Hat i _ Harg) as (group & -> & ->). done.
  - intros i id Harg. destruct (Hat i _ Harg) as (group & -> & ->). done.
Qed.

End SecurityGroupProperties.

(** ** The file system of a cluster *)

Section FileSystemProperties.
Import Vpc ClusterFileSystem.


Lemma createMountTargets_at (name : string) (group : FileSystemSecurityGroup)
    (subnetIds : list Input) :
  ∀ i k id, subnetIds !! k = Some id →
    createMountTargets name group i subnetIds !! k
    = Some {| mountTargetName := mountTargetNamed name (i + k);
              fileSystemId := IdOf name;
              subnetId := id;
              securityGroups := [group] |}.
Proof.
  induction subnetIds as [|first rest IH]; intros i [|k] id H; simpl in *; try done.
  - injection H as <-. by rewrite Nat.add_0_r.
  - rewrite (IH (S i) k id H). by replace (i + S k) with (S i + k) by lia.
Qed.

Lemma createMountTargets_names (name : string) (group : FileSystemSecurityGroup)
    (subnetIds : list Input) :
  ∀ i, map mountTargetName (createMountTargets name group i subnetIds)
       = map (mountTargetNamed name) (seq i (length subnetIds)).
Proof.
  induction subnetIds as [|first rest IH]; intros i; simpl; [reflexivity|].
  by rewrite IH.
Qed.

Lemma createMountTargets_length (name : string) (group : FileSystemSecurityGroup)
    (subnetIds : list Input) (i : nat) :
  length (createMountTargets name group i subnetIds) = length subnetIds.
Proof.
  rewrite <- (length_map mountTargetName), createMountTargets_names.
  by rewrite length_map, length_seq.
Qed.

(** X25.  The mount targets of a [ClusterFileSystem]: one for each subnet
    id, in order, the one at position [i] named [name-i], in that subnet,
    on the file system and behind the security group of the component.  The
    subnet ids are those of the arguments when given, even when empty, and
    those of the cluster's network otherwise.  No two mount targets have the
    same name. *)
Theorem constructor_mounts_every_subnet (name : string) (args : ClusterFileSystemArgs) :
  let subnets := default (networkSubnetIds (cluster args)) (subnetIds args) in
  let fileSystem := (constructor name args).1 in
  length (mountTargets fileSystem) = length subnets
  ∧ (∀ i id, subnets !! i = Some id →
       mountTargets fileSystem !! i
       = Some {| mountTargetName := name +:+ "-" +:+ pretty i;
                 fileSystemId := IdOf name;
                 subnetId := id;
                 securityGroups := [fs_securityGroup fileSystem] |})
  ∧ NoDup (map mountTargetName (mountTargets fileSystem)).
Proof.
  unfold constructor. cbv zeta.
  destruct (securityGroup args) as [group|]; simpl.
  all: split; [apply createMountTargets_length|].
  all: split.
  1, 3: intros i id H; by rewrite (createMountTargets_at _ _ _ 0 i id H).
  all: rewrite createMountTargets_names.
  all: apply (NoDup_fmap_2 (mountTargetNamed name)), NoDup_seq.
Qed.


End FileSystemProperties.

(** ** The properties at concrete inputs *)

Lemma getLocation_header_unless_all_query_witness :
  Authorizers.getLocation [("page", Authorizers.query); ("Authorization", Authorizers.header)]
  = Return Authorizers.header.
Proof.
  refine (proj2 (getLocation_header_unless_all_query
                   [("page", Authorizers.query); ("Authorization", Authorizers.header)]) _).
  discriminate.
Defined.

Lemma request_authorizer_definition_witness :
  ∃ d, Authorizers.getRequestLambdaAuthorizerDefinition
         {| Authorizers.r_authorizerName := Some "authorizer";
            Authorizers.r_parameters := [("page", Authorizers.query); ("size", Authorizers.query)];
            Authorizers.r_handler := "handler";
            Authorizers.r_authorizerResultTtlInSeconds := None |}
       = Return d
       ∧ Authorizers.parameterName d = "Unused"
       ∧ Authorizers.parameterLocation d = Authorizers.header
       ∧ Authorizers.identitySource d
         = Some ["method.request.querystring.page"; "method.request.querystring.size"].
Proof.
  destruct (proj2 (request_authorizer_definition
                     {| Authorizers.r_authorizerName := Some "authorizer";
                        Authorizers.r_parameters :=
                          [("page", Authorizers.query); ("size", Authorizers.query)];
                        Authorizers.r_handler := "handler";
                        Authorizers.r_authorizerResultTtlInSeconds := None |}))
    as (d & Hd & Hsources & _ & _ & Hmany); [discriminate|].
  exists d. split; [exact Hd|].
  destruct Hmany as [Hname Hlocation]; [simpl; lia|].
  split; [exact Hname|]. split; [exact Hlocation|exact Hsources].
Defined.

Lemma getEndpointHelper_defaults_to_first_witness :
  let web := {| ClusterTaskDefinition.hostname := "web.example.com";
                ClusterTaskDefinition.port := 80;
                ClusterTaskDefinition.loadBalancer := "web" |} in
  let admin := {| ClusterTaskDefinition.hostname := "web.example.com";
                  ClusterTaskDefinition.port := 443;
                  ClusterTaskDefinition.loadBalancer := "admin" |} in
  ClusterTaskDefinition.getEndpointHelper
    [("web", [(80, web); (443, admin)]); ("worker", [])] None None
  = Return web.
Proof.
  intros web admin.
  refine (proj1 (getEndpointHelper_defaults_to_first
                   [("web", [(80, web); (443, admin)]); ("worker", [])] None None)
                "web" 80 web [(443, admin)] [("worker", [])] _ _ _).
  - reflexivity.
  - reflexivity.
  - left. reflexivity.
Defined.

Lemma getEndpointHelper_errors_witness :
  ClusterTaskDefinition.getEndpointHelper [("web", [])] (Some "web") None
  = Throw (Error "No exposed port for web port NaN").
Proof.
  refine (proj2 (proj2 (getEndpointHelper_errors [("web", [])] (Some "web") None))
                "web" _ _ _).
  - reflexivity.
  - reflexivity.
  - left. reflexivity.
Defined.

Lemma getPortMappings_resolves_every_entry_witness :
  let http := {| Ecs.containerPort := 80%Z; Ecs.hostPort := None; Ecs.protocol := None |} in
  let container :=
    {| Container.c_image := inl "nginx"; Container.c_environment := None;
       Container.c_portMappings := Some [inl http];
       Container.c_logConfiguration := None |} in
  ∃ mappings,
    Container.getPortMappings container = Some mappings
    ∧ mappings !! 0
      = Some {| Ecs.containerPort := 80%Z; Ecs.hostPort := Some 80%Z; Ecs.protocol := None |}.
Proof.
  intros http container.
  destruct (proj2 (getPortMappings_resolves_every_entry container) [inl http] eq_refl)
    as (mappings & Hmappings & _ & Hat & _).
  exists mappings. split; [exact Hmappings|].
  exact (Hat 0 (inl http) eq_refl).
Defined.

Lemma repositories_of_names_differing_in_case_witness :
  ContainerDefinition.effects
    (ContainerDefinition.getOrCreateRepository "app"
       (ContainerDefinition.getOrCreateRepository "App" ContainerDefinition.initialState).2).2
  = [ContainerDefinition.NewRepository "app";
     ContainerDefinition.NewLifecyclePolicy "app" "app";
     ContainerDefinition.NewRepository "app";
     ContainerDefinition.NewLifecyclePolicy "app" "app"].
Proof.
  refine (repositories_of_names_differing_in_case "App" "app"
            ContainerDefinition.initialState _ _ _ _).
  - discriminate.
  - reflexivity.
  - apply lookup_empty.
  - apply lookup_empty.
Defined.

Lemma build_then_image_then_function_witness :
  ContainerDefinition.computeImage (λ s, s) (λ f, f)
    ContainerDefinition.repositoryName ContainerDefinition.repositoryName "api"
    {| ContainerDefinition.image := Some "nginx"; ContainerDefinition.build := None;
       ContainerDefinition.function := Some "handler";
       ContainerDefinition.environment := None;
       ContainerDefinition.portMappings := None;
       ContainerDefinition.logConfiguration := None |}
    ContainerDefinition.initialState
  = (Return (ContainerDefinition.createImageOptions (ContainerDefinition.ImageName "nginx") ∅),
     ContainerDefinition.initialState).
Proof.
  refine (proj2 (build_then_image_then_function (λ s, s) (λ f, f)
                   ContainerDefinition.repositoryName ContainerDefinition.repositoryName "api"
                   {| ContainerDefinition.image := Some "nginx";
                      ContainerDefinition.build := None;
                      ContainerDefinition.function := Some "handler";
                      ContainerDefinition.environment := None;
                      ContainerDefinition.portMappings := None;
                      ContainerDefinition.logConfiguration := None |}
                   {| ContainerDefinition.image := None;
                      ContainerDefinition.build := None;
                      ContainerDefinition.function := None;
                      ContainerDefinition.environment := None;
                      ContainerDefinition.portMappings := None;
                      ContainerDefinition.logConfiguration := None |}
                   ContainerDefinition.initialState) "nginx" _ _).
  - reflexivity.
  - reflexivity.
Defined.

Lemma function_container_environment_witness :
  ∃ o, ContainerDefinition.computeImage (λ s, s) (λ f, f)
         ContainerDefinition.repositoryName ContainerDefinition.repositoryName "api"
         {| ContainerDefinition.image := None; ContainerDefinition.build := None;
            ContainerDefinition.function := Some "handler";
            ContainerDefinition.environment := None;
            ContainerDefinition.portMappings := None;
            ContainerDefinition.logConfiguration := None |}
         ContainerDefinition.initialState
       = (Return o, ContainerDefinition.initialState)
       ∧ ContainerDefinition.o_environment o !! "PULUMI_SRC" = Some "handler".
Proof.
  destruct (function_container_environment (λ s, s) (λ f, f)
              ContainerDefinition.repositoryName ContainerDefinition.repositoryName "api"
              {| ContainerDefinition.image := None; ContainerDefinition.build := None;
                 ContainerDefinition.function := Some "handler";
                 ContainerDefinition.environment := None;
                 ContainerDefinition.portMappings := None;
                 ContainerDefinition.logConfiguration := None |}
              "handler" ContainerDefinition.initialState eq_refl eq_refl eq_refl)
    as (o & Ho & _ & Hsrc & _).
  exists o. split; [exact Ho|exact Hsrc].
Defined.

Lemma build_signature_is_the_rendered_text_witness :
  ContainerDefinition.buildSig
    (inr {| ContainerDefinition.context := Some "./app";
            ContainerDefinition.dockerfile := Some "Dockerfile.prod";
            ContainerDefinition.args := None |})
  = ContainerDefinition.buildSig (inl "./app;dockerfile=Dockerfile.prod").
Proof.
  refine (proj1 (proj2 (proj1 (build_signature_is_the_rendered_text (λ s, s)
            ContainerDefinition.repositoryName ContainerDefinition.repositoryName
            "./app" "Dockerfile.prod" "api" (inl "./app") (inl "./app") ∅ ∅
            ContainerDefinition.initialState _ _)))).
  - discriminate.
  - discriminate.
Defined.

Lemma makeServiceEnvName_form_witness :
  String.length (ContainerDefinition.makeServiceEnvName "my-service") = 10
  ∧ ContainerDefinition.makeServiceEnvName (ContainerDefinition.makeServiceEnvName "my-service")
    = ContainerDefinition.makeServiceEnvName "my-service".
Proof.
  destruct (makeServiceEnvName_form "my-service") as (Hlength & _ & Hagain & _).
  - repeat constructor.
  - split; [exact Hlength|exact Hagain].
Defined.


Lemma createNatGateways_only_adds_witness :
  ∃ s', Vpc.privateSubnets
          (Vpc.this (Vpc.createNatGateways 2 1
                       (Vpc.runWith ["public-0"; "public-1"] ["private-0"; "private-1"])).2)
        !! 1 = Some s'
        ∧ Vpc.subnetName s' = "private-1".
Proof.
  destruct (proj2 (proj2 (proj2 (proj2 (proj2 (proj2
              (createNatGateways_only_adds 2 1
                 (Vpc.runWith ["public-0"; "public-1"] ["private-0"; "private-1"])))))))
              1 (Vpc.newSubnet "private-1") eq_refl)
    as (s' & Hs' & Hname & _).
  exists s'. split; [exact Hs'|exact Hname].
Defined.



Lemma constructor_of_existing_vpc_witness :
  let topology := λ (this : Vpc.Vpc) (_ _ : string) (_ : nat)
                    (_ : list VpcTopology.VpcSubnetArgs),
    (Return this, @nil Vpc.Declaration) in
  Vpc.constructor topology "vpc"
    (inr {| Vpc.e_vpcId := Vpc.Literal "";
            Vpc.e_publicSubnetIds := Some [Vpc.Literal "subnet-1"];
            Vpc.e_privateSubnetIds := None; Vpc.e_isolatedSubnetIds := None;
            Vpc.e_securityGroupIds := None |})
  = Vpc.constructor topology "vpc"
      (inl {| Vpc.subnets := None; Vpc.numberOfAvailabilityZones := None;
              Vpc.numberOfNatGateways := None; Vpc.cidrBlock := None |}).
Proof.
  intros topology.
  refine (proj2 (constructor_of_existing_vpc topology "vpc"
                   {| Vpc.e_vpcId := Vpc.Literal "";
                      Vpc.e_publicSubnetIds := Some [Vpc.Literal "subnet-1"];
                      Vpc.e_privateSubnetIds := None; Vpc.e_isolatedSubnetIds := None;
                      Vpc.e_securityGroupIds := None |}) _).
  reflexivity.
Defined.

Lemma constructor_declares_group_iff_none_given_witness :
  let getDefault := λ calls : nat, (Return (@None string), S calls) in
  let args := {| SecurityGroup.a_securityGroup := None;
                 SecurityGroup.a_vpc := Some "vpc" |} in
  (SecurityGroup.constructor getDefault "web" args 0).1.2 = 0
  ∧ (SecurityGroup.constructor getDefault "web" args 0).1.1
    = Return {| SecurityGroup.componentName := "web";
                SecurityGroup.securityGroup := SecurityGroup.newSecurityGroup "web" "vpc";
                SecurityGroup.vpc := Some "vpc" |}.
Proof.
  intros getDefault args.
  exact (proj2 (proj2 (constructor_declares_group_iff_none_given getDefault "web" args 0))
               "vpc" eq_refl).
Defined.

Lemma getSecurityGroups_wraps_ids_witness :
  let getDefault := λ calls : nat, (Return (@None string), S calls) in
  ∃ groups events,
    SecurityGroup.getSecurityGroups getDefault "vpc" "task"
      (Some [inr (Vpc.Literal "sg-1"); inr (Vpc.Literal "sg-2")]) 0
    = (Return (Some groups), 0, events)
    ∧ groups !! 1 = Some (SecurityGroup.wrapped "vpc" "task" 1 (Vpc.Literal "sg-2")).
Proof.
  intros getDefault.
  destruct (getSecurityGroups_wraps_ids getDefault "vpc" "task"
              [inr (Vpc.Literal "sg-1"); inr (Vpc.Literal "sg-2")] 0)
    as (groups & events & Hrun & _ & _ & Hids & _).
  exists groups, events. split; [exact Hrun|].
  exact (Hids 1 (Vpc.Literal "sg-2") eq_refl).
Defined.

Lemma constructor_mounts_every_subnet_witness :
  let args :=
    {| ClusterFileSystem.cluster :=
         {| ClusterFileSystem.networkVpcId := Vpc.Literal "vpc-1";
            ClusterFileSystem.networkSubnetIds := [Vpc.Literal "subnet-a";
                                                   Vpc.Literal "subnet-b"];
            ClusterFileSystem.instanceSecurityGroups := [Vpc.Literal "sg-1"] |};
       ClusterFileSystem.securityGroup := None;
       ClusterFileSystem.subnetIds := None;
       ClusterFileSystem.mountPath := None |} in
  ClusterFileSystem.mountTargets (ClusterFileSystem.constructor "fs" args).1 !! 1
  = Some {| ClusterFileSystem.mountTargetName := "fs-1";
            ClusterFileSystem.fileSystemId := Vpc.IdOf "fs";
            ClusterFileSystem.subnetId := Vpc.Literal "subnet-b";
            ClusterFileSystem.securityGroups :=
              [ClusterFileSystem.createdSecurityGroup "fs-fs" (Vpc.Literal "vpc-1")
                                                      [Vpc.Literal "sg-1"]] |}.
Proof.
  intros args.
  exact (proj1 (proj2 (constructor_mounts_every_subnet "fs" args))
               1 (Vpc.Literal "subnet-b") eq_refl).
Defined.
